(** * The security gate of the agent generator

    A shallow embedding of the two gate components of the repository:

    - the runtime policy engine, class [SecurityValidator] of
      [skills/deepagent-generator/scripts/generate-agent-enhanced.py]
      ([generate_security_policy], [validate_tool_call] and its four
      helpers), together with the risk classifier of
      [EnhancedDeepAgentGenerator] ([_assess_tool_risk],
      [_check_tool_compatibility], [_validate_tool_security]);
    - the static source validator of
      [agent-generator/scripts/validate_code.py] ([SecurityValidator], an
      [ast.NodeVisitor], and [validate_python_code]).

    Around the gate, the embedding covers what feeds it and what names its
    output: the requirement analysis and the selection of the reasoning and
    memory types of [EnhancedDeepAgentGenerator], the keywords and the
    categories of [EnhancedToolAnalyzer], and, in
    [agent-generator/scripts/generate_agent.py], the function name of a
    tool, the name of the agent and the dependencies of a script.

    Python [str] values are modelled by [string]: a character is a code
    point below 256, so that [str.lower], [str.isspace] and the regular
    expression classes are the Latin-1 fragments of the Unicode ones. What
    holds of these texts only is not stated of every text: the encoding of
    a content is a hypothesis where a theorem needs it, since [str.encode]
    raises on a surrogate, and nothing is said of the length of a lowered
    text. Exceptions are explicit: a function that can raise returns an
    [outcome]. Interpreter resource limits (recursion depth, memory) are
    not modelled. *)

From Stdlib Require Import ZArith NArith Ascii String List Bool Lia.
From stdpp Require Import gmap strings list pretty sorting.

(** ** Python text primitives *)

Module Py.

Definition newline : ascii := "010"%char.
Definition dquote : ascii := "034"%char.

(** [str.isspace] on one character. *)
Definition isspace (c : ascii) : bool :=
  let n := N_of_ascii c in
  ((9 <=? n) && (n <=? 13) || (28 <=? n) && (n <=? 32)
   || (n =? 133) || (n =? 160))%N.

(** [str.lower] on one character. Below 256 [str.lower] is a map of
    characters; from 256 up it is not (U+0130 gives two code points). *)
Definition lower_char (c : ascii) : ascii :=
  let n := N_of_ascii c in
  if ((65 <=? n) && (n <=? 90)
      || (192 <=? n) && (n <=? 222) && negb (n =? 215))%N
  then ascii_of_N (n + 32) else c.

Fixpoint lower (s : string) : string :=
  match s with
  | EmptyString => EmptyString
  | String c s' => String (lower_char c) (lower s')
  end.

(** [len(s)] and [len(s.encode('utf-8'))]. *)
Definition len (s : string) : Z := Z.of_nat (String.length s).

Fixpoint utf8_len (s : string) : Z :=
  match s with
  | EmptyString => 0
  | String c s' => (if (N_of_ascii c <? 128)%N then 1 else 2) + utf8_len s'
  end.

(** [s.startswith(p)]. *)
Definition startswith (s p : string) : bool := String.prefix p s.

(** [sub in s]. *)
Fixpoint contains (sub s : string) : bool :=
  String.prefix sub s
  || match s with
     | EmptyString => false
     | String _ s' => contains sub s'
     end.

(** [s.split(sep)] for a one-character separator: never empty. *)
Fixpoint split (sep : ascii) (s : string) : list string :=
  match s with
  | EmptyString => [EmptyString]
  | String c s' =>
      if Ascii.eqb c sep then EmptyString :: split sep s'
      else match split sep s' with
           | [] => [String c EmptyString]
           | w :: ws => String c w :: ws
           end
  end.

(** [s.split()]: the maximal runs of non-whitespace characters. *)
Fixpoint split_ws (s : string) : list string :=
  match s with
  | EmptyString => []
  | String c s' =>
      if isspace c then split_ws s'
      else match s' with
           | EmptyString => [String c EmptyString]
           | String c' _ =>
               if isspace c' then String c EmptyString :: split_ws s'
               else match split_ws s' with
                    | [] => [String c EmptyString]
                    | w :: ws => String c w :: ws
                    end
           end
  end.

Fixpoint lstrip (s : string) : string :=
  match s with
  | EmptyString => EmptyString
  | String c s' => if isspace c then lstrip s' else s
  end.

Fixpoint rstrip (s : string) : string :=
  match s with
  | EmptyString => EmptyString
  | String c s' =>
      match rstrip s' with
      | EmptyString => if isspace c then EmptyString else String c EmptyString
      | r => String c r
      end
  end.

(** [s.strip()]. *)
Definition strip (s : string) : string := rstrip (lstrip s).

(** Parameter values ([Any]): text, and representatives of what is not
    text. *)
Inductive value : Type :=
| VNone
| VBool (b : bool)
| VInt (z : Z)
| VStr (s : string).

(** [str(v)], as an f-string renders a value. *)
Definition str (v : value) : string :=
  match v with
  | VNone => "None"
  | VBool true => "True"
  | VBool false => "False"
  | VInt z => pretty z
  | VStr s => s
  end.

(** The classes of the exceptions that the modelled code can meet; each is
    a subclass of [Exception]. *)
Inductive exn : Type :=
| TypeError
| AttributeError
| IndexError
| KeyError (key : string)
| ValueError
| ReError
| ImportError
| UnicodeEncodeError.

(** A call either returns a value or raises. *)
Inductive outcome (A : Type) : Type :=
| Returns (a : A)
| Raises (e : exn).
Arguments Returns {A} a.
Arguments Raises {A} e.

Definition bind {A B : Type} (m : outcome A) (k : A -> outcome B)
  : outcome B :=
  match m with
  | Returns a => k a
  | Raises e => Raises e
  end.

(** A surrogate code point, U+D800 to U+DFFF. *)
Definition is_surrogate (c : ascii) : bool :=
  let n := N_of_ascii c in ((55296 <=? n) && (n <=? 57343))%N.

(** [len(s.encode('utf-8'))]. [str.encode] raises [UnicodeEncodeError] on
    a text that holds a surrogate code point, and on no other text. *)
Definition encoded_len (s : string) : outcome Z :=
  if existsb is_surrogate (list_ascii_of_string s)
  then Raises UnicodeEncodeError
  else Returns (utf8_len s).

(** [x in l] for a list of strings. *)
Definition mem (x : string) (l : list string) : bool :=
  bool_decide (x ∈ l).

(** [any(k in line for k in keys)]. *)
Definition any_in (keys : list string) (line : string) : bool :=
  existsb (fun k => contains k line) keys.

End Py.

(** ** The fragment of Python's [re] that the policies use

    Patterns are kept as the strings of the source. A Python raw string
    literal [r'...'] denotes exactly the characters written between the
    quotes, and so does a string literal here. *)

Module Re.

Inductive cset : Type :=
| CLit (c : ascii)   (* a literal character *)
| CAny               (* [.]: anything but a newline *)
| CSpace             (* [\s] *)
| CDigit.            (* [\d] *)

Inductive regex : Type :=
| Void
| Eps
| Chr (c : cset)
| Cat (r1 r2 : regex)
| Alt (r1 r2 : regex)
| Star (r : regex).

(** *** Parsing, after [sre_parse]: branches separated by [|], each a
    sequence of repeated atoms. Constructs outside the fragment (sets,
    anchors, counted repeats, group extensions, letter escapes other than
    [\s] and [\d]) are rejected. *)

Definition is_digit (c : ascii) : bool :=
  let n := N_of_ascii c in ((48 <=? n) && (n <=? 57))%N.

Definition is_letter (c : ascii) : bool :=
  let n := N_of_ascii c in
  ((65 <=? n) && (n <=? 90) || (97 <=? n) && (n <=? 122))%N.

(** The atom denoted by a backslash followed by [c]. *)
Definition escape (c : ascii) : option regex :=
  if Ascii.eqb c "s" then Some (Chr CSpace)
  else if Ascii.eqb c "d" then Some (Chr CDigit)
  else if is_letter c || is_digit c then None
  else Some (Chr (CLit c)).

(** An opening brace that does not start a counted repeat is a literal. *)
Definition brace_is_literal (rest : list ascii) : bool :=
  match rest with
  | [] => true
  | c :: _ => negb (is_digit c || Ascii.eqb c "," || Ascii.eqb c "}")
  end.

(** The repeat operator, if any, that follows an atom. *)
Definition parse_repeat (a : regex) (s : list ascii) : regex * list ascii :=
  match s with
  | c :: s' =>
      if Ascii.eqb c "*" then (Star a, s')
      else if Ascii.eqb c "+" then (Cat a (Star a), s')
      else if Ascii.eqb c "?" then (Alt a Eps, s')
      else (a, s)
  | [] => (a, s)
  end.

Fixpoint parse_sub (n : nat) (s : list ascii) {struct n}
  : option (regex * list ascii) :=
  match n with
  | O => None
  | S n =>
      match parse_seq n s with
      | Some (r, c :: s') =>
          if Ascii.eqb c "|" then
            match parse_sub n s' with
            | Some (r', s'') => Some (Alt r r', s'')
            | None => None
            end
          else Some (r, c :: s')
      | other => other
      end
  end
with parse_seq (n : nat) (s : list ascii) {struct n}
  : option (regex * list ascii) :=
  match n with
  | O => None
  | S n =>
      match s with
      | [] => Some (Eps, [])
      | c :: _ =>
          if Ascii.eqb c "|" || Ascii.eqb c ")" then Some (Eps, s)
          else
            match parse_atom n s with
            | Some (a, s1) =>
                let '(q, s2) := parse_repeat a s1 in
                match parse_seq n s2 with
                | Some (r, s3) => Some (Cat q r, s3)
                | None => None
                end
            | None => None
            end
      end
  end
with parse_atom (n : nat) (s : list ascii) {struct n}
  : option (regex * list ascii) :=
  match n with
  | O => None
  | S n =>
      match s with
      | [] => None
      | c :: s' =>
          if Ascii.eqb c "(" then
            match parse_sub n s' with
            | Some (r, c' :: s'') =>
                if Ascii.eqb c' ")" then Some (r, s'') else None
            | _ => None
            end
          else if Ascii.eqb c "\" then
            match s' with
            | e :: s'' =>
                match escape e with
                | Some a => Some (a, s'')
                | None => None
                end
            | [] => None
            end
          else if Ascii.eqb c "." then Some (Chr CAny, s')
          else if Ascii.eqb c "{" then
            if brace_is_literal s' then Some (Chr (CLit c), s') else None
          else if Ascii.eqb c "*" || Ascii.eqb c "+" || Ascii.eqb c "?"
                  || Ascii.eqb c "[" || Ascii.eqb c "^" || Ascii.eqb c "$"
          then None
          else Some (Chr (CLit c), s')
      end
  end.

(** [re.compile(pattern)]; [None] stands for [re.error] or for a pattern
    outside the fragment. *)
Definition compile (pattern : string) : option regex :=
  let s := list_ascii_of_string pattern in
  match parse_sub (3 * length s + 3) s with
  | Some (r, []) => Some r
  | _ => None
  end.

(** *** Matching by derivatives. [ic] is the flag [re.IGNORECASE]. *)

Definition cset_match (ic : bool) (cs : cset) (a : ascii) : bool :=
  match cs with
  | CLit c =>
      if ic then Ascii.eqb (Py.lower_char a) (Py.lower_char c)
      else Ascii.eqb a c
  | CAny => negb (Ascii.eqb a Py.newline)
  | CSpace => Py.isspace a
  | CDigit => is_digit a
  end.

Fixpoint nullable (r : regex) : bool :=
  match r with
  | Void => false
  | Eps => true
  | Chr _ => false
  | Cat r1 r2 => nullable r1 && nullable r2
  | Alt r1 r2 => nullable r1 || nullable r2
  | Star _ => true
  end.

Fixpoint deriv (ic : bool) (a : ascii) (r : regex) : regex :=
  match r with
  | Void => Void
  | Eps => Void
  | Chr cs => if cset_match ic cs a then Eps else Void
  | Cat r1 r2 =>
      if nullable r1
      then Alt (Cat (deriv ic a r1) r2) (deriv ic a r2)
      else Cat (deriv ic a r1) r2
  | Alt r1 r2 => Alt (deriv ic a r1) (deriv ic a r2)
  | Star r1 => Cat (deriv ic a r1) (Star r1)
  end.

(** The whole of [s] matches [r]. *)
Fixpoint fullmatch (ic : bool) (r : regex) (s : list ascii) : bool :=
  match s with
  | [] => nullable r
  | a :: s' => fullmatch ic (deriv ic a r) s'
  end.

(** Some prefix of [s] matches [r] ([Pattern.match]). *)
Fixpoint match_here (ic : bool) (r : regex) (s : list ascii) : bool :=
  nullable r
  || match s with
     | [] => false
     | a :: s' => match_here ic (deriv ic a r) s'
     end.

(** Some substring of [s] matches [r]: the start positions are tried from
    left to right. *)
Fixpoint search_from (ic : bool) (r : regex) (s : list ascii) : bool :=
  match_here ic r s
  || match s with
     | [] => false
     | _ :: s' => search_from ic r s'
     end.

(** The truth value of [re.search(pattern, s, flags)]; [None] when the
    pattern does not compile. *)
Definition search (ic : bool) (pattern s : string) : option bool :=
  match compile pattern with
  | Some r => Some (search_from ic r (list_ascii_of_string s))
  | None => None
  end.

(** *** The words of a regular expression, to state what the matcher
    decides. *)
Inductive lang (ic : bool) : regex -> list ascii -> Prop :=
| lang_eps : lang ic Eps []
| lang_chr cs a : cset_match ic cs a = true -> lang ic (Chr cs) [a]
| lang_cat r1 r2 s1 s2 :
    lang ic r1 s1 -> lang ic r2 s2 -> lang ic (Cat r1 r2) (s1 ++ s2)
| lang_alt_l r1 r2 s : lang ic r1 s -> lang ic (Alt r1 r2) s
| lang_alt_r r1 r2 s : lang ic r2 s -> lang ic (Alt r1 r2) s
| lang_star_nil r : lang ic (Star r) []
| lang_star_app r s1 s2 :
    lang ic r s1 -> lang ic (Star r) s2 -> lang ic (Star r) (s1 ++ s2).

(** Every word of [r] holds the literal [c]: a sufficient test. *)
Fixpoint requires (c : ascii) (r : regex) : bool :=
  match r with
  | Void => true
  | Eps => false
  | Chr (CLit c') => Ascii.eqb c' c
  | Chr _ => false
  | Cat r1 r2 => requires c r1 || requires c r2
  | Alt r1 r2 => requires c r1 && requires c r2
  | Star _ => false
  end.

End Re.

(** ** The capability policy engine

    Class [SecurityValidator] of [generate-agent-enhanced.py]. *)

Module PolicyEngine.
Import Py.

Global Instance outcome_ret : MRet outcome := @Returns.
Global Instance outcome_bind : MBind outcome :=
  fun A B k m => bind m k.

(** The entries of a policy dictionary. *)
Inductive pval : Type :=
| PList (l : list string)
| PInt (z : Z)
| PBool (b : bool)
| PStr (s : string).

Abbreviation policy := (gmap string pval).
Abbreviation params := (gmap string value).

(** The result dictionary of [validate_tool_call]. *)
Record decision : Type := Decision {
  allowed : bool;
  reason : string;
  warnings : list string;
  modified_params : params
}.

(** [result['allowed'] = False; result['reason'] = why]. *)
Definition deny (result : decision) (why : string) : decision :=
  {| allowed := false; reason := why;
     warnings := warnings result;
     modified_params := modified_params result |}.

(** [result['warnings'].append(w)]. *)
Definition warn (result : decision) (w : string) : decision :=
  {| allowed := allowed result; reason := reason result;
     warnings := warnings result ++ [w];
     modified_params := modified_params result |}.

(** What the engine takes from the interpreter and its libraries:
    [pathlib.Path(p).suffix]; [urllib.parse.urlparse], giving the scheme
    and the network location as an f-string renders them, or the exception
    it raised; and the text [str(e)] of an exception. The result of
    [urlparse] on a value that is not text has components that are not
    text either: rendered, such a scheme differs from every allowed
    scheme. *)
Record host : Type := Host {
  path_suffix : string -> string;
  urlparse : value -> outcome (string * string);
  exn_text : exn -> string
}.

Definition search_files_policy : policy :=
  list_to_map [
    ("allowed_paths", PList ["."; "./workspace"; "./project"; "./src"]);
    ("blocked_patterns",
      PList ["/etc/"; "/proc/"; "/sys/"; "~/.ssh"; "~/.gnupg"; "/root/"]);
    ("max_file_size", PInt (10 * 1024 * 1024));
    ("timeout", PInt 30);
    ("require_safe_paths", PBool true)].

Definition read_file_policy : policy :=
  list_to_map [
    ("allowed_extensions",
      PList [".py"; ".md"; ".txt"; ".json"; ".yaml"; ".yml"; ".js"; ".ts";
             ".java"; ".cpp"; ".c"; ".h"]);
    ("blocked_paths",
      PList ["/etc/"; "/proc/"; "/sys/"; "/root/"; "~/.ssh"; "~/.gnupg"]);
    ("max_file_size", PInt (5 * 1024 * 1024));
    ("timeout", PInt 10);
    ("require_safe_paths", PBool true)].

Definition browser_navigate_policy : policy :=
  list_to_map [
    ("allowed_schemes", PList ["http"; "https"]);
    ("blocked_domains",
      PList ["localhost"; "127.0.0.1"; "0.0.0.0"; "file://"; "internal"]);
    ("timeout", PInt 45);
    ("max_redirects", PInt 5);
    ("require_https", PBool false)].

(** The patterns are the raw strings of the source, character for
    character: each backslash is doubled there. *)
Definition execute_command_policy : policy :=
  list_to_map [
    ("allowed_commands",
      PList ["ls"; "echo"; "cat"; "grep"; "find"; "pwd"; "which"; "head";
             "tail"]);
    ("blocked_patterns",
      PList ["rm\\s+-rf"; "dd\\s+if="; ":\\(\\)\\{"; "chmod\\s+\\d+\\s+/";
             ">\\s*/dev/sd"; "wget.*\\|"; "curl.*\\|"]);
    ("timeout", PInt 60);
    ("max_output_size", PInt (1024 * 1024));
    ("allow_sudo", PBool false);
    ("require_shell", PBool false)].

Definition write_to_file_policy : policy :=
  list_to_map [
    ("allowed_directories",
      PList ["."; "./workspace"; "./project"; "./output"; "./temp"]);
    ("blocked_paths",
      PList ["/etc/"; "/proc/"; "/sys/"; "/root/"; "~/.ssh"; "~/.gnupg"]);
    ("max_file_size", PInt (10 * 1024 * 1024));
    ("create_backup", PBool true);
    ("timeout", PInt 30);
    ("require_safe_paths", PBool true)].

Definition policies : gmap string policy :=
  list_to_map [
    ("search_files", search_files_policy);
    ("read_file", read_file_policy);
    ("browser_navigate", browser_navigate_policy);
    ("execute_command", execute_command_policy);
    ("write_to_file", write_to_file_policy)].

Definition default_policy : policy :=
  list_to_map [
    ("timeout", PInt 30);
    ("max_attempts", PInt 3);
    ("require_validation", PBool true);
    ("logging_level", PStr "INFO")].

(** [policies.get(tool_name, default_policy)]. *)
Definition generate_security_policy (tool_name : string) : policy :=
  default default_policy (policies !! tool_name).

(** [params.get(key, '')]. *)
Definition get (p : params) (key : string) : value :=
  default (VStr "") (p !! key).

(** [policy[key]], used as a list of strings. *)
Definition get_list (pol : policy) (key : string) : outcome (list string) :=
  match pol !! key with
  | Some (PList l) => Returns l
  | Some _ => Raises TypeError
  | None => Raises (KeyError key)
  end.

(** [policy[key]], used as a number. *)
Definition get_int (pol : policy) (key : string) : outcome Z :=
  match pol !! key with
  | Some (PInt z) => Returns z
  | Some _ => Raises TypeError
  | None => Raises (KeyError key)
  end.

(** [key in policy]. *)
Definition has_key (pol : policy) (key : string) : bool :=
  bool_decide (is_Some (pol !! key)).

(** [bool(re.search(pattern, v, flags))]: the pattern is compiled first,
    and a subject that is not text is a [TypeError]. *)
Definition re_search (ic : bool) (pattern : string) (v : value)
  : outcome bool :=
  match Re.compile pattern with
  | None => Raises ReError
  | Some r =>
      match v with
      | VStr s => Returns (Re.search_from ic r (list_ascii_of_string s))
      | _ => Raises TypeError
      end
  end.

(** The loop [for p in patterns: if re.search(p, v, flags): ...return]:
    the first pattern of the list that matches, if any. *)
Fixpoint first_blocked (ic : bool) (patterns : list string) (v : value)
  : outcome (option string) :=
  match patterns with
  | [] => Returns None
  | p :: ps =>
      match re_search ic p v with
      | Returns true => Returns (Some p)
      | Returns false => first_blocked ic ps v
      | Raises e => Raises e
      end
  end.

(** The attributes [encode] and [split] exist on text only. *)
Definition as_text (v : value) : outcome string :=
  match v with
  | VStr s => Returns s
  | _ => Raises AttributeError
  end.

(** [Path(v)] takes text only. *)
Definition as_path (v : value) : outcome string :=
  match v with
  | VStr s => Returns s
  | _ => Raises TypeError
  end.

Section Engine.
Variable h : host.

Definition _validate_read_file (ps : params) (pol : policy)
    (result : decision) : outcome decision :=
  let file_path := get ps "path" in
  blocked ← get_list pol "blocked_paths";
  hit ← first_blocked false blocked file_path;
  match hit with
  | Some _ =>
      Returns (deny result
        ("Access to path blocked by policy: " +:+ str file_path))
  | None =>
      if has_key pol "allowed_extensions" then
        p ← as_path file_path;
        let ext := lower (path_suffix h p) in
        exts ← get_list pol "allowed_extensions";
        if mem ext exts then Returns result
        else Returns (warn result
          ("File extension " +:+ ext +:+ " may not be supported"))
      else Returns result
  end.

Definition _validate_write_file (ps : params) (pol : policy)
    (result : decision) : outcome decision :=
  let file_path := get ps "path" in
  blocked ← get_list pol "blocked_paths";
  hit ← first_blocked false blocked file_path;
  match hit with
  | Some _ =>
      Returns (deny result
        ("Write to path blocked by policy: " +:+ str file_path))
  | None =>
      content ← as_text (get ps "content");
      size ← encoded_len content;
      max ← get_int pol "max_file_size";
      if (max <? size)%Z then
        Returns (deny result
          ("Content too large: " +:+ pretty (len content)
           +:+ " bytes (max: " +:+ pretty max +:+ ")"))
      else Returns result
  end.

Definition _validate_execute_command (ps : params) (pol : policy)
    (result : decision) : outcome decision :=
  let command := get ps "command" in
  blocked ← get_list pol "blocked_patterns";
  hit ← first_blocked true blocked command;
  match hit with
  | Some blocked_pattern =>
      Returns (deny result
        ("Command blocked by security policy: " +:+ blocked_pattern))
  | None =>
      if has_key pol "allowed_commands" then
        c ← as_text command;
        match split_ws c with
        | [] => Raises IndexError
        | w :: _ =>
            let cmd_start := lower w in
            cmds ← get_list pol "allowed_commands";
            if mem cmd_start cmds then Returns result
            else Returns (warn result
              ("Command " +:+ cmd_start +:+ " not in allowed list"))
        end
      else Returns result
  end.

(** The body of the [try] block, up to the final [return result]. *)
Definition browser_navigate_try (url : value) (pol : policy)
    (result : decision) : outcome decision :=
  parsed ← urlparse h url;
  let '(scheme, netloc) := parsed in
  schemes ← get_list pol "allowed_schemes";
  if negb (mem scheme schemes) then
    Returns (deny result ("URL scheme not allowed: " +:+ scheme))
  else
    domains ← get_list pol "blocked_domains";
    if existsb (fun blocked_domain => contains blocked_domain netloc)
         domains
    then Returns (deny result ("Access to domain blocked: " +:+ netloc))
    else Returns result.

Definition _validate_browser_navigate (ps : params) (pol : policy)
    (result : decision) : outcome decision :=
  let url := get ps "url" in
  match browser_navigate_try url pol result with
  | Returns r => Returns r
  | Raises e =>
      Returns (deny result ("Invalid URL format: " +:+ exn_text h e))
  end.

Definition validate_tool_call (tool_name : string) (parameters : params)
  : outcome decision :=
  let pol := generate_security_policy tool_name in
  let validation_result :=
    {| allowed := true; reason := ""; warnings := [];
       modified_params := ∅ |} in
  if decide (tool_name = "read_file") then
    _validate_read_file parameters pol validation_result
  else if decide (tool_name = "write_to_file") then
    _validate_write_file parameters pol validation_result
  else if decide (tool_name = "execute_command") then
    _validate_execute_command parameters pol validation_result
  else if decide (tool_name = "browser_navigate") then
    _validate_browser_navigate parameters pol validation_result
  else Returns validation_result.

End Engine.

(** [re.search(p, s, flags)] compiles and finds a match. *)
Definition matches (ic : bool) (p s : string) : bool :=
  match Re.search ic p s with
  | Some true => true
  | _ => false
  end.

(** A parameter that is text, or absent (and then read as the empty text). *)
Definition text_param (ps : params) (key : string) : Prop :=
  exists s, get ps key = VStr s.

(** The blocked patterns of the file policies and of the command policy. *)
Definition path_patterns : list string :=
  ["/etc/"; "/proc/"; "/sys/"; "/root/"; "~/.ssh"; "~/.gnupg"].

Definition command_patterns : list string :=
  ["rm\\s+-rf"; "dd\\s+if="; ":\\(\\)\\{"; "chmod\\s+\\d+\\s+/";
   ">\\s*/dev/sd"; "wget.*\\|"; "curl.*\\|"].

(** The decision every call starts from. *)
Definition initial_decision : decision :=
  {| allowed := true; reason := ""; warnings := []; modified_params := ∅ |}.

(** *** A host to run the engine on

    [PurePosixPath(p).suffix]: the name is the last component that is
    neither empty nor a single dot; its suffix starts at its last dot,
    unless that dot is its first or its last character. *)
Definition posix_name (p : string) : string :=
  default "" (last (filter (fun x => x <> "" /\ x <> ".") (split "/" p))).

Definition posix_suffix (p : string) : string :=
  let name := posix_name p in
  match reverse (split "." name) with
  | ext :: _ :: _ =>
      if bool_decide (ext = "") then ""
      else if bool_decide (String.length name = S (String.length ext))
      then "" else "." +:+ ext
  | _ => ""
  end.

(** A POSIX host on which [urllib] cannot be imported: the [import] inside
    the [try] block of [_validate_browser_navigate] raises. *)
Definition bare_posix_host : host :=
  {| path_suffix := posix_suffix;
     urlparse := fun _ => Raises ImportError;
     exn_text := fun _ => "No module named 'urllib'" |}.

End PolicyEngine.

(** ** The risk classifier

    Methods [_assess_tool_risk], [_check_tool_compatibility],
    [_generate_security_recommendations] and [_validate_tool_security] of
    [EnhancedDeepAgentGenerator]. *)

Module Risk.
Import Py PolicyEngine.

(** [v in l] for a value and a list of strings. *)
Definition value_in (v : value) (l : list string) : bool :=
  match v with
  | VStr s => mem s l
  | _ => false
  end.

(** [v == s]. *)
Definition value_is (v : value) (s : string) : bool :=
  match v with
  | VStr s' => bool_decide (s' = s)
  | _ => false
  end.

Definition _assess_tool_risk (tool_name : string) (pol : policy)
    (security_level : value) : string :=
  let high_risk_tools := ["execute_command"; "write_to_file";
                          "browser_navigate"] in
  let medium_risk_tools := ["read_file"; "search_files"; "apply_diff"] in
  if mem tool_name high_risk_tools then
    if value_in security_level ["high"; "maximum"] then "high" else "medium"
  else if mem tool_name medium_risk_tools then "medium"
  else "low".

Definition _check_tool_compatibility (tools : list string) : list string :=
  let n := Z.of_nat (length tools) in
  let issues := [] in
  let issues :=
    if mem "execute_command" tools && mem "browser_navigate" tools then
      issues ++ ["Combining command execution with browser automation may have security implications"]
    else issues in
  let issues :=
    if (8 <? n)%Z then
      issues ++ ["Large number of tools (" +:+ pretty n
                 +:+ ") may impact performance and increase complexity"]
    else issues in
  issues.

(** The result dictionary of [_validate_tool_security]. *)
Record validation_results : Type := ValidationResults {
  level : value;
  validations : gmap string (policy * string);
  warnings : list string;
  recommendations : list string;
  compatibility_issues : list string
}.

Definition _generate_security_recommendations (tools : list string)
    (security_level : value) : list string :=
  let recommendations := [] in
  let recommendations :=
    if value_is security_level "high" then
      recommendations ++
        ["Consider using sandboxed environments for tool execution";
         "Implement additional input validation for user-provided parameters"]
    else recommendations in
  let recommendations :=
    if mem "execute_command" tools then
      recommendations ++
        ["Review command execution policies and restrict allowed commands"]
    else recommendations in
  let recommendations :=
    if mem "browser_navigate" tools then
      recommendations ++
        ["Implement URL validation and restrict navigation to trusted domains"]
    else recommendations in
  let recommendations :=
    if mem "write_to_file" tools then
      recommendations ++
        ["Use file path validation and restrict write access to safe directories"]
    else recommendations in
  recommendations.

(** The part of [generated_tools] that the classifier reads: the names that
    have an entry under ['implementations'] (the entries themselves are not
    read), and the dictionary under ['security_policies']. *)
Record generated_tools : Type := GeneratedTools {
  implementations : gset string;
  security_policies : gmap string policy
}.

(** The loop over [tools]: the validations and the warnings so far. *)
Fixpoint validate_each (tools : list string) (gen : generated_tools)
    (security_level : value)
    (acc : gmap string (policy * string) * list string)
  : outcome (gmap string (policy * string) * list string) :=
  match tools with
  | [] => Returns acc
  | tool_name :: rest =>
      if bool_decide (tool_name ∈ implementations gen) then
        match security_policies gen !! tool_name with
        | None => Raises (KeyError tool_name)
        | Some pol =>
            let vals :=
              <[tool_name :=
                  (pol, _assess_tool_risk tool_name pol security_level)]>
                (fst acc) in
            let warns :=
              if value_is security_level "high"
                 && mem tool_name ["execute_command"; "browser_navigate"]
              then snd acc ++
                     ["Tool '" +:+ tool_name
                      +:+ "' may pose security risks at high security level"]
              else snd acc in
            validate_each rest gen security_level (vals, warns)
        end
      else validate_each rest gen security_level acc
  end.

Definition _validate_tool_security (tools : list string)
    (gen : generated_tools) (config : gmap string value)
  : outcome validation_results :=
  let security_level := default (VStr "medium") (config !! "security_level") in
  r ← validate_each tools gen security_level (∅, []);
  let compatibility_issues := _check_tool_compatibility tools in
  Returns {| level := security_level;
             validations := fst r;
             warnings := snd r;
             recommendations :=
               _generate_security_recommendations tools security_level;
             compatibility_issues := compatibility_issues |}.

(** What [ToolGenerator.generate_tools] leaves in those two entries when
    every tool of [tool_names] is generated without an exception. *)
Definition generated_for (tool_names : list string) : generated_tools :=
  {| implementations := list_to_set tool_names;
     security_policies :=
       list_to_map
         (map (fun t => (t, generate_security_policy t)) tool_names) |}.

End Risk.

(** ** The static source validator

    [validate_code.py]: the visitor [SecurityValidator] and
    [validate_python_code]. *)

Module CodeValidator.
Import Py.

(** *** The syntax tree, as far as the visitor tells its nodes apart

    [ast.alias] carries a dotted name. A [Call] has its callee [func]
    followed by its arguments and keywords; the function definitions and
    every other kind of node have their child nodes in field order. A
    [Name] has no child that the visitor acts on. *)
Record alias : Type := Alias {
  name : string;
  asname : option string
}.

#[warnings="-register-all"]
Inductive node : Type :=
| Name (id : string)
| Attribute (obj : node) (attr : string)
| Call (lineno : Z) (func : node) (args : list node)
| Import (lineno : Z) (names : list alias)
| ImportFrom (lineno : Z) (module : option string) (names : list alias)
| FunctionDef (children : list node)
| AsyncFunctionDef (children : list node)
| Other (children : list node).

(** What [ast.parse(code)] does: a tree, a [SyntaxError] with its [lineno]
    (which can be [None]) and [msg], or another exception. *)
Inductive parse_result : Type :=
| Parsed (tree : node)
| SyntaxError (lineno : option Z) (msg : string)
| ParseRaises (e : exn).

Record ValidationResult : Type := Build_ValidationResult {
  valid : bool;
  errors : list string;
  warnings : list string;
  imports_found : list string
}.

Definition FORBIDDEN_CALLS : gset string :=
  list_to_set ["eval"; "exec"; "compile"; "__import__";
               "open"; "file"; "input"; "raw_input";
               "system"; "popen"; "subprocess"].

Definition ALLOWED_IMPORTS : gset string :=
  list_to_set ["langgraph"; "langchain"; "langchain_core";
               "langchain_community";
               "pydantic"; "deepagents";
               "json"; "os"; "sys"; "asyncio"; "logging"; "typing";
               "datetime"; "dataclasses"; "functools"; "itertools";
               "pathlib"; "tempfile"; "shutil";
               "requests"; "aiohttp"; "redis";
               "tenacity"; "dotenv"].

(** The attributes of the visitor object ([self]). *)
Record validator : Type := Validator {
  self_errors : list string;
  self_warnings : list string;
  self_imports : list string;
  self_in_function_def : bool;
  self_depth : Z
}.

(** [SecurityValidator()]. *)
Definition new_validator : validator :=
  {| self_errors := []; self_warnings := []; self_imports := [];
     self_in_function_def := false; self_depth := 0 |}.

(** [self.errors.append(e)]. *)
Definition add_error (self : validator) (e : string) : validator :=
  {| self_errors := self_errors self ++ [e];
     self_warnings := self_warnings self;
     self_imports := self_imports self;
     self_in_function_def := self_in_function_def self;
     self_depth := self_depth self |}.

(** [self.imports.append(m)]. *)
Definition add_import (self : validator) (m : string) : validator :=
  {| self_errors := self_errors self;
     self_warnings := self_warnings self;
     self_imports := self_imports self ++ [m];
     self_in_function_def := self_in_function_def self;
     self_depth := self_depth self |}.

(** [self.in_function_def = b]. *)
Definition set_in_function_def (self : validator) (b : bool) : validator :=
  {| self_errors := self_errors self;
     self_warnings := self_warnings self;
     self_imports := self_imports self;
     self_in_function_def := b;
     self_depth := self_depth self |}.

(** [path.split('.')[0]]. *)
Definition root_segment (path : string) : string :=
  match split "." path with
  | seg :: _ => seg
  | [] => ""
  end.

Definition forbidden_call_message (lineno : Z) (id : string) : string :=
  "Line " +:+ pretty lineno +:+ ": Forbidden function call: " +:+ id.

Definition unauthorized_import_message (lineno : Z) (path : string)
  : string :=
  "Line " +:+ pretty lineno +:+ ": Unauthorized import: " +:+ path.

Definition unauthorized_import_from_message (lineno : Z) (path : string)
  : string :=
  "Line " +:+ pretty lineno +:+ ": Unauthorized import from: " +:+ path.

(** [visit_Call], before it descends into the children. *)
Definition visit_Call_check (lineno : Z) (func : node) (self : validator)
  : validator :=
  match func with
  | Name id =>
      if bool_decide (id ∈ FORBIDDEN_CALLS)
      then add_error self (forbidden_call_message lineno id)
      else self
  | _ => self
  end.

(** The body of the loop of [visit_Import], for one alias. *)
Definition visit_Import_alias (lineno : Z) (self : validator) (a : alias)
  : validator :=
  let module := root_segment (name a) in
  let self := add_import self (name a) in
  if bool_decide (module ∈ ALLOWED_IMPORTS) then self
  else add_error self (unauthorized_import_message lineno (name a)).

(** [visit_ImportFrom], before it descends: [if node.module:] holds of a
    module path that is neither [None] nor empty. *)
Definition visit_ImportFrom_check (lineno : Z) (module : option string)
    (self : validator) : validator :=
  match module with
  | None => self
  | Some m =>
      if bool_decide (m = "") then self
      else
        let root := root_segment m in
        let self := add_import self m in
        if bool_decide (root ∈ ALLOWED_IMPORTS) then self
        else add_error self (unauthorized_import_from_message lineno m)
  end.

(** [NodeVisitor.visit]: the method of the node's class, or
    [generic_visit], which visits the children in order. The aliases of an
    import are nodes without a method of their own and without children. *)
Fixpoint visit (n : node) (self : validator) : validator :=
  match n with
  | Name _ => self
  | Attribute obj _ => visit obj self
  | Call lineno func args =>
      fold_left (fun s c => visit c s) args
        (visit func (visit_Call_check lineno func self))
  | Import lineno names => fold_left (visit_Import_alias lineno) names self
  | ImportFrom lineno module _ => visit_ImportFrom_check lineno module self
  | FunctionDef children
  | AsyncFunctionDef children =>
      let old_in_func := self_in_function_def self in
      let self := set_in_function_def self true in
      let self := fold_left (fun s c => visit c s) children self in
      set_in_function_def self old_in_func
  | Other children => fold_left (fun s c => visit c s) children self
  end.

(** [f"{e.lineno}"]. *)
Definition lineno_text (lineno : option Z) : string :=
  match lineno with
  | Some l => pretty l
  | None => "None"
  end.

Definition secret_keys : list string :=
  ["api_key = " +:+ String dquote ""; "token = " +:+ String dquote "";
   "password = " +:+ String dquote ""].

(** The two loops [for i, line in enumerate(lines, 1)], from index [i]. *)
Fixpoint secret_scan (i : Z) (lines : list string) : list string :=
  match lines with
  | [] => []
  | line :: rest =>
      (if any_in secret_keys line
          && negb (any_in ["os.getenv"; "environ.get"] line)
       then ["Line " +:+ pretty i
             +:+ ": Potential hardcoded secret detected. Use os.getenv() instead."]
       else [])
      ++ secret_scan (i + 1) rest
  end.

Fixpoint print_scan (i : Z) (lines : list string) : list string :=
  match lines with
  | [] => []
  | line :: rest =>
      (let stripped := strip line in
       if startswith stripped "print("
          && negb (any_in ["logging"; "__name__"; "argparse"] line)
       then ["Line " +:+ pretty i
             +:+ ": Use logging instead of print() for production code"]
       else [])
      ++ print_scan (i + 1) rest
  end.

Section Validate.
Variable ast_parse : string -> parse_result.

Definition validate_python_code (code : string) : outcome ValidationResult :=
  match ast_parse code with
  | SyntaxError lineno msg =>
      Returns
        {| valid := false;
           errors := ["Syntax error at line " +:+ lineno_text lineno
                      +:+ ": " +:+ msg];
           warnings := [];
           imports_found := [] |}
  | ParseRaises e => Raises e
  | Parsed tree =>
      let validator := visit tree new_validator in
      let errors := [] ++ self_errors validator in
      let warnings := [] ++ self_warnings validator in
      let imports := self_imports validator in
      let lines := split newline code in
      let warnings := warnings ++ secret_scan 1 lines in
      let warnings := warnings ++ print_scan 1 lines in
      let warnings :=
        match imports with
        | [] => warnings ++ ["No imports detected - code may be incomplete"]
        | _ => warnings
        end in
      let valid := bool_decide (length errors = 0%nat) in
      Returns
        {| valid := valid; errors := errors; warnings := warnings;
           imports_found := imports |}
  end.

End Validate.

(** *** The nodes of a tree and what each one adds *)

(** The nodes in the order in which [visit] reaches them. *)
Fixpoint preorder (n : node) : list node :=
  n ::
  match n with
  | Name _ => []
  | Attribute obj _ => preorder obj
  | Call _ func args => preorder func ++ flat_map preorder args
  | Import _ _ => []
  | ImportFrom _ _ _ => []
  | FunctionDef children => flat_map preorder children
  | AsyncFunctionDef children => flat_map preorder children
  | Other children => flat_map preorder children
  end.

(** The error diagnostics and the import records that the visit of one
    node adds by itself, from the methods above run on a fresh visitor. *)
Definition own (n : node) : validator :=
  match n with
  | Call lineno func _ => visit_Call_check lineno func new_validator
  | Import lineno names =>
      fold_left (visit_Import_alias lineno) names new_validator
  | ImportFrom lineno module _ =>
      visit_ImportFrom_check lineno module new_validator
  | _ => new_validator
  end.

Definition own_errors (n : node) : list string := self_errors (own n).
Definition own_imports (n : node) : list string := self_imports (own n).

(** A visitor after further errors and imports were appended. *)
Definition extend (self : validator) (errs imps : list string) : validator :=
  {| self_errors := self_errors self ++ errs;
     self_warnings := self_warnings self;
     self_imports := self_imports self ++ imps;
     self_in_function_def := self_in_function_def self;
     self_depth := self_depth self |}.

(** The induction principle of the tree, with the children of a node. *)
Fixpoint node_induction (P : node -> Prop)
    (HName : forall id, P (Name id))
    (HAttribute : forall obj attr, P obj -> P (Attribute obj attr))
    (HCall : forall lineno func args,
        P func -> Forall P args -> P (Call lineno func args))
    (HImport : forall lineno names, P (Import lineno names))
    (HImportFrom : forall lineno module names,
        P (ImportFrom lineno module names))
    (HFunctionDef : forall children,
        Forall P children -> P (FunctionDef children))
    (HAsyncFunctionDef : forall children,
        Forall P children -> P (AsyncFunctionDef children))
    (HOther : forall children, Forall P children -> P (Other children))
    (n : node) {struct n} : P n :=
  let rec := node_induction P HName HAttribute HCall HImport HImportFrom
               HFunctionDef HAsyncFunctionDef HOther in
  let all := fix all (l : list node) : Forall P l :=
    match l with
    | [] => @List.Forall_nil _ P
    | c :: l' => @List.Forall_cons _ P c l' (rec c) (all l')
    end in
  match n with
  | Name id => HName id
  | Attribute obj attr => HAttribute obj attr (rec obj)
  | Call lineno func args => HCall lineno func args (rec func) (all args)
  | Import lineno names => HImport lineno names
  | ImportFrom lineno module names => HImportFrom lineno module names
  | FunctionDef children => HFunctionDef children (all children)
  | AsyncFunctionDef children => HAsyncFunctionDef children (all children)
  | Other children => HOther children (all children)
  end.

End CodeValidator.

(** ** The requirement assessors and the type selectors

    Methods [_assess_complexity], [_assess_memory_needs],
    [_assess_reasoning_needs], [_assess_security_needs],
    [_analyze_requirements], [_select_reasoning_type] and
    [_select_memory_type] of [EnhancedDeepAgentGenerator]. *)

Module Requirements.
Import Py.

(** The loop [for level, indicators in table.items(): if any(indicator in
    desc_lower for indicator in indicators): return level], followed by
    [return fallback]: the rows are tried in the order of the dictionary. *)
Definition first_indicated (table : list (string * list string))
    (fallback : string) (desc_lower : string) : string :=
  match List.find (fun row => any_in (snd row) desc_lower) table with
  | Some row => fst row
  | None => fallback
  end.

Definition complexity_indicators : list (string * list string) :=
  [("simple", ["simple"; "basic"; "easy"; "straightforward"; "minimal"]);
   ("medium", ["multiple"; "several"; "various"; "different"; "moderate"]);
   ("complex", ["complex"; "advanced"; "sophisticated"; "multi-step";
                "coordinated"; "intricate"])].

Definition _assess_complexity (description : string) : string :=
  let desc_lower := lower description in
  first_indicated complexity_indicators "medium" desc_lower.

Definition memory_indicators : list (string * list string) :=
  [("buffer", ["simple"; "basic"; "recent"; "limited"]);
   ("summary", ["summary"; "overview"; "key points"; "high-level"]);
   ("vector", ["semantic"; "similar"; "related"; "context"; "search";
               "find"])].

Definition _assess_memory_needs (description : string) : string :=
  let desc_lower := lower description in
  first_indicated memory_indicators "buffer" desc_lower.

Definition reasoning_indicators : list (string * list string) :=
  [("react", ["direct"; "simple"; "quick"; "immediate"; "straightforward"]);
   ("plan-and-execute", ["plan"; "strategy"; "multi-step"; "coordinate";
                         "orchestrate"]);
   ("babyagi", ["autonomous"; "research"; "explore"; "discover";
                "continuous"])].

Definition _assess_reasoning_needs (description : string) : string :=
  let desc_lower := lower description in
  first_indicated reasoning_indicators "react" desc_lower.

Definition security_indicators : list (string * list string) :=
  [("low", ["internal"; "trusted"; "safe"; "private"]);
   ("medium", ["standard"; "normal"; "typical"]);
   ("high", ["secure"; "sensitive"; "confidential"; "protected"]);
   ("maximum", ["critical"; "top-secret"; "classified"; "financial";
                "medical"])].

Definition _assess_security_needs (description : string) : string :=
  let desc_lower := lower description in
  first_indicated security_indicators "medium" desc_lower.

(** The dictionary built by [_analyze_requirements]; [tool_analysis] is what
    [self.tool_analyzer.analyze(description)] returned. *)
Definition _analyze_requirements (tool_analysis : value)
    (description : string) : gmap string value :=
  list_to_map
    [("complexity", VStr (_assess_complexity description));
     ("tool_requirements", tool_analysis);
     ("memory_requirements", VStr (_assess_memory_needs description));
     ("reasoning_requirements", VStr (_assess_reasoning_needs description));
     ("security_requirements", VStr (_assess_security_needs description))].

Definition REASONING_TYPES : list string :=
  ["auto"; "react"; "plan-and-execute"; "babyagi"].

Definition MEMORY_TYPES : list string :=
  ["auto"; "buffer"; "summary"; "vector"].

(** [analysis[key]]. *)
Definition item (analysis : gmap string value) (key : string)
  : outcome value :=
  match analysis !! key with
  | Some v => Returns v
  | None => Raises (KeyError key)
  end.

(** [v == s]. *)
Definition value_is (v : value) (s : string) : bool :=
  match v with
  | VStr s' => bool_decide (s' = s)
  | _ => false
  end.

Definition _select_reasoning_type (requested_type : string)
    (description : string) (analysis : gmap string value)
  : outcome string :=
  if negb (bool_decide (requested_type = "auto")) then
    if negb (mem requested_type REASONING_TYPES) then Raises ValueError
    else Returns requested_type
  else
    bind (item analysis "complexity") (fun complexity =>
    bind (item analysis "reasoning_requirements") (fun reasoning_needs =>
    if value_is reasoning_needs "babyagi"
       || contains "research" (lower description)
    then Returns "babyagi"
    else if value_is complexity "complex"
            || value_is reasoning_needs "plan-and-execute"
    then Returns "plan-and-execute"
    else Returns "react")).

Definition _select_memory_type (requested_type : string)
    (description : string) (analysis : gmap string value)
  : outcome string :=
  if negb (bool_decide (requested_type = "auto")) then
    if negb (mem requested_type MEMORY_TYPES) then Raises ValueError
    else Returns requested_type
  else
    bind (item analysis "memory_requirements") (fun memory_needs =>
    if value_is memory_needs "vector"
       || contains "semantic" (lower description)
    then Returns "vector"
    else if value_is memory_needs "summary"
            || contains "summary" (lower description)
    then Returns "summary"
    else Returns "buffer").

End Requirements.

(** ** The keyword extraction and the category assignment of the tool
    analyzer

    Methods [_extract_keywords] and [_assign_tool_categories] of
    [EnhancedToolAnalyzer], with the table [TOOL_CATEGORIES]. *)

Module ToolAnalyzer.
Import Py.

(** The class [\w] on one character. *)
Definition is_word_char (c : ascii) : bool :=
  let n := N_of_ascii c in
  ((48 <=? n) && (n <=? 57) || (65 <=? n) && (n <=? 90) || (n =? 95)
   || (97 <=? n) && (n <=? 122) || (n =? 170)
   || (178 <=? n) && (n <=? 179) || (n =? 181)
   || (185 <=? n) && (n <=? 186) || (188 <=? n) && (n <=? 190)
   || (192 <=? n) && (n <=? 214) || (216 <=? n) && (n <=? 246)
   || (248 <=? n))%N.

(** [re.findall(r'\b\w+\b', s)]: the maximal runs of word characters. *)
Fixpoint findall_words (s : string) : list string :=
  match s with
  | EmptyString => []
  | String c s' =>
      if is_word_char c then
        match s' with
        | EmptyString => [String c EmptyString]
        | String c' _ =>
            if is_word_char c' then
              match findall_words s' with
              | [] => [String c EmptyString]
              | w :: ws => String c w :: ws
              end
            else String c EmptyString :: findall_words s'
        end
      else findall_words s'
  end.

(** The phrases [f"{words[i]} {words[i+1]}"] for [i] in
    [range(len(words) - 1)]. *)
Fixpoint bigrams (words : list string) : list string :=
  match words with
  | w1 :: ((w2 :: _) as rest) => (w1 +:+ " " +:+ w2) :: bigrams rest
  | _ => []
  end.

(** The phrases of three words, for [i] in [range(len(words) - 2)]. *)
Fixpoint trigrams (words : list string) : list string :=
  match words with
  | w1 :: ((w2 :: w3 :: _) as rest) =>
      (w1 +:+ " " +:+ w2 +:+ " " +:+ w3) :: trigrams rest
  | _ => []
  end.

(** The loop that keeps the first occurrence of each keyword: [seen] is the
    set of the keywords met so far. *)
Fixpoint unique_from (seen : gset string) (keywords : list string)
  : list string :=
  match keywords with
  | [] => []
  | kw :: rest =>
      if bool_decide (kw ∈ seen) then unique_from seen rest
      else kw :: unique_from ({[kw]} ∪ seen) rest
  end.

Definition _extract_keywords (description : string) : list string :=
  let words := findall_words (lower description) in
  let keywords := words ++ bigrams words ++ trigrams words in
  unique_from ∅ keywords.

Record category : Type := Category {
  category_name : string;
  tools : list string;
  keywords : list string;
  description : string
}.

Definition TOOL_CATEGORIES : list category :=
  [ {| category_name := "web";
       tools := ["browser_navigate"; "browser_snapshot"; "browser_evaluate";
                 "browser_click"; "browser_type"];
       keywords := ["web"; "browser"; "website"; "online"; "internet";
                    "page"; "navigate"; "click"; "type"];
       description := "Web automation and browser interaction tools" |};
    {| category_name := "data";
       tools := ["data_analysis"; "calculator"; "statistics"; "plot";
                 "graph"];
       keywords := ["data"; "analyze"; "statistics"; "calculate"; "math";
                    "plot"; "graph"; "chart"];
       description := "Data analysis and mathematical computation tools" |};
    {| category_name := "file";
       tools := ["search_files"; "read_file"; "write_to_file"; "list_files";
                 "apply_diff"];
       keywords := ["file"; "read"; "write"; "document"; "search"; "list";
                    "directory"; "folder"];
       description := "File system operations and management tools" |};
    {| category_name := "api";
       tools := ["api_calls"; "http_request"; "webhook"; "endpoint"];
       keywords := ["api"; "http"; "request"; "endpoint"; "webhook"; "rest";
                    "json"; "xml"];
       description := "API integration and HTTP request tools" |};
    {| category_name := "database";
       tools := ["database"; "sql"; "query"; "table"; "record"];
       keywords := ["database"; "sql"; "query"; "table"; "record";
                    "postgres"; "mysql"; "mongodb"];
       description := "Database operations and query tools" |};
    {| category_name := "communication";
       tools := ["email"; "send_message"; "slack"; "teams"; "chat"];
       keywords := ["email"; "send"; "message"; "slack"; "teams"; "chat";
                    "communicate"; "notify"];
       description := "Communication and messaging tools" |};
    {| category_name := "analysis";
       tools := ["codebase_search"; "list_code_definition_names";
                 "search_files"];
       keywords := ["analyze"; "code"; "search"; "find"; "pattern";
                    "structure"; "definition"];
       description := "Code analysis and search tools" |};
    {| category_name := "automation";
       tools := ["execute_command"; "mcp_tool"; "schedule"; "automate"];
       keywords := ["execute"; "command"; "run"; "automate"; "schedule";
                    "script"; "program"];
       description := "System automation and command execution tools" |} ].

(** The loop over the categories of a table: the result dictionary, as its
    items in the order of insertion. *)
Fixpoint assign_over (table : list category) (selected_tools : list string)
  : list (string * list string) :=
  match table with
  | [] => []
  | config :: rest =>
      let category_tools :=
        filter (fun tool => tool ∈ tools config) selected_tools in
      match category_tools with
      | [] => assign_over rest selected_tools
      | _ => (category_name config, category_tools)
             :: assign_over rest selected_tools
      end
  end.

Definition _assign_tool_categories (selected_tools : list string)
  : list (string * list string) :=
  assign_over TOOL_CATEGORIES selected_tools.

End ToolAnalyzer.

(** ** Names and dependencies of the generated script

    [agent-generator/scripts/generate_agent.py]: the property [func_name]
    of [Tool], [DeepAgentGenerator._sanitize_name] and
    [extract_dependencies]. *)

Module Generator.
Import Py.

(** [s.replace(old, new)] for one-character [old] and [new]. *)
Fixpoint replace_char (old new : ascii) (s : string) : string :=
  match s with
  | EmptyString => EmptyString
  | String c s' =>
      String (if Ascii.eqb c old then new else c) (replace_char old new s')
  end.


(** The class [[a-zA-Z0-9_]]. *)
Definition is_identifier_char (c : ascii) : bool :=
  let n := N_of_ascii c in
  ((97 <=? n) && (n <=? 122) || (65 <=? n) && (n <=? 90)
   || (48 <=? n) && (n <=? 57) || (n =? 95))%N.

(** [re.sub(r'[^a-zA-Z0-9_]', '', s)]: the characters outside the class
    are removed. *)
Fixpoint remove_non_identifier (s : string) : string :=
  match s with
  | EmptyString => EmptyString
  | String c s' =>
      if is_identifier_char c then String c (remove_non_identifier s')
      else remove_non_identifier s'
  end.

(** [s[:n]]. *)
Fixpoint slice_to (n : nat) (s : string) : string :=
  match n, s with
  | S n', String c s' => String c (slice_to n' s')
  | _, _ => EmptyString
  end.

Definition _sanitize_name (description : string) : string :=
  let name :=
    slice_to 50 (remove_non_identifier (replace_char " " "_" description)) in
  match name with
  | EmptyString => "DeepAgent"
  | _ => "DeepAgent_" +:+ name
  end.

(** The longest prefix without a whitespace character. *)
Fixpoint nonspace_run (s : string) : string :=
  match s with
  | EmptyString => EmptyString
  | String c s' =>
      if isspace c then EmptyString else String c (nonspace_run s')
  end.

(** [s] after the prefix [p], when it starts with it. *)
Fixpoint after_prefix (p s : string) : option string :=
  match p, s with
  | EmptyString, _ => Some s
  | String a p', String b s' =>
      if Ascii.eqb a b then after_prefix p' s' else None
  | String _ _, EmptyString => None
  end.

(** One alternative of the pattern [^(?:from|import)\s+(\S+)]: the keyword
    at the start of the line, one whitespace character at least, and then
    group 1, the longest run of characters that are not whitespace, which
    must not be empty. Both repetitions are greedy, and giving back a
    whitespace character cannot help [\S+] to match. *)
Definition target_after (keyword line : string) : option string :=
  match after_prefix keyword line with
  | Some (String c _ as rest) =>
      if isspace c then
        match nonspace_run (lstrip rest) with
        | EmptyString => None
        | group1 => Some group1
        end
      else None
  | _ => None
  end.

(** [re.match(import_pattern, line)]: [match.group(1)], or [None]. *)
Definition import_target (line : string) : option string :=
  match target_after "from" line with
  | Some group1 => Some group1
  | None => target_after "import" line
  end.

(** The loop over the lines: the set [imports]. *)
Fixpoint collect_imports (lines : list string) (imports : gset string)
  : gset string :=
  match lines with
  | [] => imports
  | line :: rest =>
      match import_target line with
      | Some group1 =>
          collect_imports rest
            (imports ∪ {[ CodeValidator.root_segment group1 ]})
      | None => collect_imports rest imports
      end
  end.

Definition mapping : gmap string string :=
  list_to_map
    [("langgraph", "langgraph>=0.1.0");
     ("langchain", "langchain>=0.3.0");
     ("langchain_core", "langchain-core>=0.3.0");
     ("langchain_community", "langchain-community>=0.3.0");
     ("pydantic", "pydantic>=2.0.0");
     ("deepagents", "deepagents>=0.2.7");
     ("redis", "redis>=5.0.0")].

(** [sorted(imports)]: the elements in the order of [str], which compares
    code points. *)
Definition sorted (imports : gset string) : list string :=
  merge_sort String.le (elements imports).

Definition extract_dependencies (script : string) : list string :=
  let imports := collect_imports (split newline script) ∅ in
  omap (fun imp => mapping !! imp) (sorted imports).

End Generator.

(** * The matcher decides the words of a regular expression *)

Module ReSpec.
Import Re.

Lemma nullable_lang ic r : nullable r = true <-> lang ic r [].
Proof.
  split.
  - induction r; simpl; intros H; try discriminate.
    + constructor.
    + apply andb_true_iff in H as [H1 H2].
      change (@nil ascii) with (@nil ascii ++ []). constructor; auto.
    + apply orb_true_iff in H as [H|H];
        [apply lang_alt_l|apply lang_alt_r]; auto.
    + constructor.
  - intros H. remember [] as s eqn:Hs.
    induction H; simpl; try reflexivity; try discriminate.
    + apply app_eq_nil in Hs as [-> ->].
      rewrite IHlang1, IHlang2; reflexivity.
    + rewrite IHlang by assumption. reflexivity.
    + rewrite IHlang by assumption. apply orb_true_r.
Qed.

(** A non-empty word of a starred expression starts with a non-empty word
    of the expression. *)
Lemma lang_star_cons ic r a s :
  lang ic (Star r) (a :: s) ->
  exists s1 s2, s = s1 ++ s2 /\ lang ic r (a :: s1) /\ lang ic (Star r) s2.
Proof.
  intros H. remember (Star r) as q eqn:Hq. remember (a :: s) as w eqn:Hw.
  revert s Hw.
  induction H; intros s' Hw; try discriminate.
  injection Hq as ->.
  destruct s1 as [|b s1].
  - simpl in Hw. apply (IHlang2 eq_refl s' Hw).
  - simpl in Hw. injection Hw as -> <-. exists s1, s2. auto.
Qed.

Lemma deriv_lang ic a r : forall s, lang ic (deriv ic a r) s <-> lang ic r (a :: s).
Proof.
  induction r; intros s; simpl.
  - split; intros H; inversion H.
  - split; intros H; inversion H.
  - destruct (cset_match ic c a) eqn:Hc; split; intros H.
    + inversion H; subst. constructor. exact Hc.
    + inversion H; subst. constructor.
    + inversion H.
    + inversion H; subst. congruence.
  - assert (lang ic (Cat (deriv ic a r1) r2) s
            <-> exists s1 s2, s = s1 ++ s2 /\ lang ic r1 (a :: s1)
                              /\ lang ic r2 s2) as Hcat.
    { split.
      - intros H. inversion H; subst. eexists _, _.
        split; [reflexivity|]. split; [apply IHr1|]; assumption.
      - intros (s1 & s2 & -> & H1 & H2). constructor; [apply IHr1|];
          assumption. }
    assert (lang ic (Cat r1 r2) (a :: s)
            <-> (exists s1 s2, s = s1 ++ s2 /\ lang ic r1 (a :: s1)
                               /\ lang ic r2 s2)
                \/ (lang ic r1 [] /\ lang ic r2 (a :: s))) as Hsplit.
    { split.
      - intros H. inversion H as [| |? ? s1 s2 H1 H2 E1 E2| | | |]; subst.
        destruct s1 as [|b s1]; simpl in E2.
        + right. subst s2. auto.
        + injection E2 as -> <-. left. eauto.
      - intros [(s1 & s2 & -> & H1 & H2)|[H1 H2]].
        + change (a :: s1 ++ s2) with ((a :: s1) ++ s2). constructor; auto.
        + change (a :: s) with ([] ++ a :: s). constructor; auto.  }
    rewrite Hsplit. destruct (nullable r1) eqn:Hn.
    + split.
      * intros H. inversion H; subst.
        -- left. apply Hcat. assumption.
        -- right. split; [apply nullable_lang; exact Hn|apply IHr2; assumption].
      * intros [H|[_ H]].
        -- apply lang_alt_l, Hcat, H.
        -- apply lang_alt_r, IHr2, H.
    + rewrite Hcat. split; [auto|]. intros [H|[H _]]; [exact H|].
      apply nullable_lang in H. congruence.
  - split; intros H.
    + inversion H; subst; [apply lang_alt_l, IHr1|apply lang_alt_r, IHr2];
        assumption.
    + inversion H; subst; [apply lang_alt_l, IHr1|apply lang_alt_r, IHr2];
        assumption.
  - split; intros H.
    + inversion H; subst.
      change (a :: s1 ++ s2) with ((a :: s1) ++ s2).
      constructor; [apply IHr|]; assumption.
    + apply lang_star_cons in H as (s1 & s2 & -> & H1 & H2).
      constructor; [apply IHr|]; assumption.
Qed.

(** [fullmatch] decides the words of the expression. *)
Lemma fullmatch_lang ic r s : fullmatch ic r s = true <-> lang ic r s.
Proof.
  revert r. induction s as [|a s IH]; intros r; simpl.
  - apply nullable_lang.
  - rewrite IH. apply deriv_lang.
Qed.

(** [match_here] finds a word of the expression at the start of the
    subject. *)
Lemma match_here_lang ic r s :
  match_here ic r s = true
  <-> exists s1 s2, s = s1 ++ s2 /\ lang ic r s1.
Proof.
  revert r. induction s as [|a s IH]; intros r; simpl.
  - rewrite orb_false_r, (nullable_lang ic). split.
    + intros H. exists [], []. auto.
    + intros (s1 & s2 & E & H). symmetry in E.
      apply app_eq_nil in E as [-> _]. exact H.
  - rewrite orb_true_iff, IH, (nullable_lang ic). split.
    + intros [H|(s1 & s2 & -> & H)].
      * exists [], (a :: s). auto.
      * exists (a :: s1), s2. split; [reflexivity|]. apply deriv_lang, H.
    + intros (s1 & s2 & E & H). destruct s1 as [|b s1].
      * left. exact H.
      * simpl in E. injection E as <- ->. right. exists s1, s2.
        split; [reflexivity|]. apply deriv_lang, H.
Qed.

(** [search_from] finds a word of the expression somewhere in the
    subject. *)
Theorem search_from_lang ic r s :
  search_from ic r s = true
  <-> exists s0 s1 s2, s = s0 ++ s1 ++ s2 /\ lang ic r s1.
Proof.
  induction s as [|a s IH]; cbn [search_from].
  - rewrite orb_false_r, match_here_lang. split.
    + intros (s1 & s2 & E & H). exists [], s1, s2. auto.
    + intros (s0 & s1 & s2 & E & H). destruct s0; [|discriminate E].
      exists s1, s2. auto.
  - rewrite orb_true_iff, IH, match_here_lang. split.
    + intros [(s1 & s2 & E & H)|(s0 & s1 & s2 & -> & H)].
      * exists [], s1, s2. auto.
      * exists (a :: s0), s1, s2. auto.
    + intros (s0 & s1 & s2 & E & H). destruct s0 as [|b s0].
      * left. exists s1, s2. auto.
      * simpl in E. injection E as <- ->. right. exists s0, s1, s2. auto.
Qed.

(** A word of an expression that requires a literal holds a character
    that matches the literal. *)
Lemma requires_lang ic c r s :
  requires c r = true -> lang ic r s ->
  exists a, In a s /\ cset_match ic (CLit c) a = true.
Proof.
  intros Hr H. induction H; simpl in Hr; try discriminate.
  - destruct cs; try discriminate. apply Ascii.eqb_eq in Hr. subst c0.
    exists a. split; [left; reflexivity|assumption].
  - apply orb_true_iff in Hr as [Hr|Hr].
    + destruct (IHlang1 Hr) as (a & Ha & Hm). exists a.
      split; [apply in_or_app; left|]; assumption.
    + destruct (IHlang2 Hr) as (a & Ha & Hm). exists a.
      split; [apply in_or_app; right|]; assumption.
  - apply andb_true_iff in Hr as [Hr _]. auto.
  - apply andb_true_iff in Hr as [_ Hr]. auto.
Qed.

(** Only a backslash matches a literal backslash, whatever the flags. *)
Lemma backslash_only ic a : cset_match ic (CLit "\") a = true -> a = "\"%char.
Proof.
  destruct ic; simpl; intros H; apply Ascii.eqb_eq in H.
  - destruct a as [[] [] [] [] [] [] [] []]; vm_compute in H;
      solve [reflexivity | discriminate H].
  - exact H.
Qed.

(** A pattern all of whose words hold a backslash is not found in a text
    without one. *)
Lemma search_needs_backslash ic r s :
  requires "\" r = true -> ~ In "\"%char s -> search_from ic r s = false.
Proof.
  intros Hr Hs. destruct (search_from ic r s) eqn:E; [|reflexivity].
  apply search_from_lang in E as (s0 & s1 & s2 & -> & H).
  destruct (requires_lang ic _ _ _ Hr H) as (a & Ha & Hm).
  apply backslash_only in Hm. subst a. destruct Hs.
  apply in_or_app. right. apply in_or_app. left. exact Ha.
Qed.

End ReSpec.

(** * Properties of the policy engine *)

Module PolicyEngineSpec.
Import Py PolicyEngine.

Lemma bind_returns {A B : Type} (a : A) (k : A -> outcome B) :
  (Returns a ≫= k) = k a.
Proof. reflexivity. Qed.

(** A pattern that matches the empty text is found in every subject. *)
Lemma search_from_nullable ic r s :
  Re.nullable r = true -> Re.search_from ic r s = true.
Proof.
  intros Hn. destruct s as [|a s]; simpl; rewrite Hn; reflexivity.
Qed.

Lemma re_search_text ic p s :
  is_Some (Re.compile p) ->
  re_search ic p (VStr s) = Returns (matches ic p s).
Proof.
  intros [r Hr]. unfold re_search, matches, Re.search. rewrite Hr.
  destruct (Re.search_from ic r _); reflexivity.
Qed.

(** On a text subject and patterns that compile, the loop returns the first
    pattern of the list that matches. *)
Lemma first_blocked_text ic pats s :
  Forall (fun p => is_Some (Re.compile p)) pats ->
  first_blocked ic pats (VStr s)
  = Returns (List.find (fun p => matches ic p s) pats).
Proof.
  induction 1 as [|p pats Hp _ IH]; simpl; [reflexivity|].
  rewrite (re_search_text _ _ _ Hp).
  destruct (matches ic p s); [reflexivity|exact IH].
Qed.

(** A subject that is not text stops the loop at the first pattern. *)
Lemma first_blocked_not_text ic p pats v :
  is_Some (Re.compile p) ->
  (forall s, v <> VStr s) ->
  first_blocked ic (p :: pats) v = Raises TypeError.
Proof.
  intros [r Hr] Hv. simpl. unfold re_search. rewrite Hr.
  destruct v; try reflexivity. destruct (Hv s); reflexivity.
Qed.

Lemma path_patterns_compile :
  Forall (fun p => is_Some (Re.compile p)) path_patterns.
Proof. repeat constructor; vm_compute; eauto. Qed.

Lemma command_patterns_compile :
  Forall (fun p => is_Some (Re.compile p)) command_patterns.
Proof. repeat constructor; vm_compute; eauto. Qed.

Lemma read_file_blocked :
  get_list read_file_policy "blocked_paths" = Returns path_patterns.
Proof. reflexivity. Qed.

Lemma write_to_file_blocked :
  get_list write_to_file_policy "blocked_paths" = Returns path_patterns.
Proof. reflexivity. Qed.

Lemma execute_command_blocked :
  get_list execute_command_policy "blocked_patterns"
  = Returns command_patterns.
Proof. reflexivity. Qed.

Lemma call_read_file h ps :
  validate_tool_call h "read_file" ps
  = _validate_read_file h ps read_file_policy initial_decision.
Proof. reflexivity. Qed.

Lemma call_write_to_file h ps :
  validate_tool_call h "write_to_file" ps
  = _validate_write_file ps write_to_file_policy initial_decision.
Proof. reflexivity. Qed.

Lemma call_execute_command h ps :
  validate_tool_call h "execute_command" ps
  = _validate_execute_command ps execute_command_policy initial_decision.
Proof. reflexivity. Qed.

Lemma call_browser_navigate h ps :
  validate_tool_call h "browser_navigate" ps
  = _validate_browser_navigate h ps browser_navigate_policy initial_decision.
Proof. reflexivity. Qed.

(** The download pattern [wget.*\\|] ends in an empty branch: after the
    doubled backslash the bar is an alternation, so that the pattern is
    found in every text. *)
Lemma wget_pattern_matches_everything s :
  matches true "wget.*\\|" s = true.
Proof.
  assert (exists r, Re.compile "wget.*\\|" = Some r /\ Re.nullable r = true)
    as (r & Hr & Hn) by (eexists; split; [vm_compute; reflexivity|reflexivity]).
  unfold matches, Re.search. rewrite Hr.
  rewrite (search_from_nullable _ _ _ Hn). reflexivity.
Qed.

(** Every command that is text is denied, and the reason names the first
    blocked pattern, in the order of the policy, that is found in it. The
    check of [allowed_commands], and with it [command.split()[0]], is never
    reached. *)
Lemma execute_command_text_denied h ps s :
  get ps "command" = VStr s ->
  exists pat,
    List.find (fun p => matches true p s) command_patterns = Some pat
    /\ validate_tool_call h "execute_command" ps
       = Returns (deny initial_decision
                    ("Command blocked by security policy: " +:+ pat)).
Proof.
  intros Hs. rewrite call_execute_command. unfold _validate_execute_command.
  rewrite Hs, execute_command_blocked. rewrite bind_returns.
  rewrite (first_blocked_text _ _ _ command_patterns_compile).
  destruct (List.find _ command_patterns) as [pat|] eqn:Hf.
  - exists pat. split; reflexivity.
  - exfalso.
    pose proof (find_none _ _ Hf "wget.*\\|") as Hn. simpl in Hn.
    rewrite wget_pattern_matches_everything in Hn.
    discriminate Hn. unfold command_patterns. simpl. tauto.
Qed.

(** The five patterns before it ask for a backslash: none is found in a
    command without one, so that the reason given for such a command, a
    destructive one included, names the download pattern. *)
Lemma command_without_backslash h ps s :
  get ps "command" = VStr s ->
  ~ In "\"%char (list_ascii_of_string s) ->
  Forall (fun p => matches true p s = false)
    ["rm\\s+-rf"; "dd\\s+if="; ":\\(\\)\\{"; "chmod\\s+\\d+\\s+/";
     ">\\s*/dev/sd"]
  /\ validate_tool_call h "execute_command" ps
     = Returns (deny initial_decision
                  "Command blocked by security policy: wget.*\\|").
Proof.
  intros Hs Hb.
  assert (forall p,
            (exists r, Re.compile p = Some r /\ Re.requires "\" r = true) ->
            matches true p s = false) as Hno.
  { intros p (r & Hr & Hq). unfold matches, Re.search. rewrite Hr.
    rewrite (ReSpec.search_needs_backslash _ _ _ Hq Hb). reflexivity. }
  assert (Forall (fun p => matches true p s = false)
            ["rm\\s+-rf"; "dd\\s+if="; ":\\(\\)\\{"; "chmod\\s+\\d+\\s+/";
             ">\\s*/dev/sd"]) as Hall.
  { repeat constructor; apply Hno; eexists;
      (split; [vm_compute; reflexivity|reflexivity]). }
  split; [exact Hall|].
  destruct (execute_command_text_denied h ps s Hs) as (pat & Hf & ->).
  unfold command_patterns in Hf. simpl in Hf.
  pose proof Hall as Hnone.
  repeat match type of Hnone with
         | Forall _ (_ :: _) =>
             let E := fresh "E" in
             apply Forall_cons in Hnone as [E Hnone]; rewrite E in Hf
         end.
  rewrite wget_pattern_matches_everything in Hf. injection Hf as <-.
  reflexivity.
Qed.

(** C1. On [execute_command] with the command [rm -rf /] the call is denied,
    but not by the destructive pattern: [rm\\s+-rf] asks for a backslash
    after [rm] and is not found in the command, nor is any of the four
    patterns that follow it; the reason names the download pattern
    [wget.*\\|], which is found in every text. *)
Theorem rm_rf_denied_for_wget_pattern (h : host) :
  matches true "rm\\s+-rf" "rm -rf /" = false
  /\ List.find (fun p => matches true p "rm -rf /") command_patterns
     = Some "wget.*\\|"
  /\ validate_tool_call h "execute_command" {[ "command" := VStr "rm -rf /" ]}
     = Returns
         {| allowed := false;
            reason := "Command blocked by security policy: wget.*\\|";
            warnings := [];
            modified_params := ∅ |}.
Proof.
  split; [vm_compute; reflexivity|].
  split; [vm_compute; reflexivity|].
  rewrite call_execute_command. vm_compute. reflexivity.
Qed.

(** C2, as the claim states it, fails: a path with a parent-directory
    segment that meets no blocked pattern is allowed, by [read_file] and by
    [write_to_file]. *)
Lemma traversal_path_allowed :
  contains ".." "../notes.txt" = true
  /\ validate_tool_call bare_posix_host "read_file"
       {[ "path" := VStr "../notes.txt" ]}
     = Returns {| allowed := true; reason := ""; warnings := [];
                  modified_params := ∅ |}
  /\ validate_tool_call bare_posix_host "write_to_file"
       {[ "path" := VStr "../notes.txt" ]}
     = Returns {| allowed := true; reason := ""; warnings := [];
                  modified_params := ∅ |}.
Proof. repeat split; vm_compute; reflexivity. Qed.

(** C2, amended. For [read_file] and [write_to_file], a call whose path is a
    text in which one of the blocked path patterns of the policy is found is
    denied, whatever the other parameters are, and the reason cites the
    path. *)
Theorem blocked_path_denied (h : host) (tool : string) (ps : params)
    (p pat : string) :
  tool = "read_file" \/ tool = "write_to_file" ->
  get ps "path" = VStr p ->
  In pat path_patterns ->
  matches false pat p = true ->
  exists d,
    validate_tool_call h tool ps = Returns d
    /\ allowed d = false
    /\ reason d
       = (if bool_decide (tool = "read_file")
          then "Access to path blocked by policy: "
          else "Write to path blocked by policy: ") +:+ p.
Proof.
  intros Htool Hp Hin Hm.
  assert (exists q, List.find (fun x => matches false x p) path_patterns
                    = Some q) as [q Hq].
  { destruct (List.find _ path_patterns) as [q|] eqn:Hf; [eauto|].
    pose proof (find_none _ _ Hf pat Hin) as Hn. simpl in Hn. congruence. }
  destruct Htool as [-> | ->].
  - rewrite call_read_file. unfold _validate_read_file.
    rewrite Hp, read_file_blocked. rewrite bind_returns.
    rewrite (first_blocked_text _ _ _ path_patterns_compile), Hq.
    eexists. split; [reflexivity|]. split; reflexivity.
  - rewrite call_write_to_file. unfold _validate_write_file.
    rewrite Hp, write_to_file_blocked. rewrite bind_returns.
    rewrite (first_blocked_text _ _ _ path_patterns_compile), Hq.
    eexists. split; [reflexivity|]. split; reflexivity.
Qed.

Lemma blocked_path_denied_witness :
  exists d,
    validate_tool_call bare_posix_host "read_file"
      {[ "path" := VStr "../../etc/passwd"; "encoding" := VInt 8 ]}
    = Returns d
    /\ allowed d = false
    /\ reason d = "Access to path blocked by policy: ../../etc/passwd".
Proof.
  apply (blocked_path_denied bare_posix_host "read_file"
           {[ "path" := VStr "../../etc/passwd"; "encoding" := VInt 8 ]}
           "../../etc/passwd" "/etc/").
  - left. reflexivity.
  - vm_compute. reflexivity.
  - simpl. tauto.
  - vm_compute. reflexivity.
Defined.

(** For [read_file] the blocked patterns are the only ground of denial: on
    a text path the call returns, and it denies exactly when a blocked
    pattern is found in the path. *)
Lemma read_file_denied_iff h ps p :
  get ps "path" = VStr p ->
  exists d,
    validate_tool_call h "read_file" ps = Returns d
    /\ (allowed d = false
        <-> exists pat, In pat path_patterns /\ matches false pat p = true).
Proof.
  intros Hp. rewrite call_read_file. unfold _validate_read_file.
  rewrite Hp, read_file_blocked. rewrite bind_returns.
  rewrite (first_blocked_text _ _ _ path_patterns_compile).
  destruct (List.find _ path_patterns) as [q|] eqn:Hf.
  - eexists. split; [reflexivity|]. simpl. split; [intros _|reflexivity].
    apply find_some in Hf. exists q. exact Hf.
  - assert (has_key read_file_policy "allowed_extensions" = true) as ->
      by reflexivity.
    assert (get_list read_file_policy "allowed_extensions"
            = Returns [".py"; ".md"; ".txt"; ".json"; ".yaml"; ".yml"; ".js";
                       ".ts"; ".java"; ".cpp"; ".c"; ".h"]) as ->
      by reflexivity.
    simpl as_path. rewrite !bind_returns.
    match goal with |- context [mem ?e ?l] => destruct (mem e l) end;
      (eexists; split; [reflexivity|]; simpl; split; [discriminate|];
       intros (pat & Hin & Hm);
       pose proof (find_none _ _ Hf pat Hin) as Hn; simpl in Hn; congruence).
Qed.

(** The scenario of the specification: a plain relative path is allowed
    without a warning. *)
Example read_notes_allowed :
  validate_tool_call bare_posix_host "read_file"
    {[ "path" := VStr "./notes.txt" ]}
  = Returns {| allowed := true; reason := ""; warnings := [];
               modified_params := ∅ |}.
Proof. vm_compute. reflexivity. Qed.

(** C3. A parameter that is not text makes the call raise: [re.search]
    refuses the [command] or the [path], and [content] has no [encode]. *)
Theorem non_text_parameter_raises (h : host) :
  validate_tool_call h "execute_command" {[ "command" := VNone ]}
  = Raises TypeError
  /\ validate_tool_call h "read_file" {[ "path" := VInt 5 ]}
     = Raises TypeError
  /\ validate_tool_call h "write_to_file"
       {[ "path" := VStr "out.txt"; "content" := VInt 5 ]}
     = Raises AttributeError.
Proof.
  split; [rewrite call_execute_command; vm_compute; reflexivity|].
  split; [rewrite call_read_file; vm_compute; reflexivity|].
  rewrite call_write_to_file; vm_compute; reflexivity.
Qed.

(** When the parameters [path], [command] and [content] are text or absent
    and the content has a UTF-8 encoding, every call returns a decision.
    For [execute_command] this rests on [execute_command_text_denied]: the
    empty command, on which [command.split()[0]] would raise, is denied
    before. *)
Lemma text_parameters_return h tool ps :
  text_param ps "path" -> text_param ps "command" ->
  (exists t n, get ps "content" = VStr t /\ encoded_len t = Returns n) ->
  exists d, validate_tool_call h tool ps = Returns d.
Proof.
  intros [p Hp] [c Hc] (t & n & Ht & Hn).
  destruct (decide (tool = "read_file")) as [->|N1].
  { destruct (read_file_denied_iff h ps p Hp) as (d & Hd & _). eauto. }
  destruct (decide (tool = "write_to_file")) as [->|N2].
  { rewrite call_write_to_file. unfold _validate_write_file.
    rewrite Hp, Ht, write_to_file_blocked. rewrite bind_returns.
    rewrite (first_blocked_text _ _ _ path_patterns_compile).
    destruct (List.find _ path_patterns); [rewrite bind_returns; eauto|].
    simpl as_text. rewrite !bind_returns, Hn, bind_returns.
    assert (get_int write_to_file_policy "max_file_size"
            = Returns (10 * 1024 * 1024)%Z) as -> by reflexivity.
    rewrite bind_returns. destruct (_ <? _)%Z; eauto. }
  destruct (decide (tool = "execute_command")) as [->|N3].
  { destruct (execute_command_text_denied h ps c Hc) as (pat & _ & Hd). eauto. }
  destruct (decide (tool = "browser_navigate")) as [->|N4].
  { rewrite call_browser_navigate. unfold _validate_browser_navigate.
    destruct (browser_navigate_try _ _ _ _); eauto. }
  unfold validate_tool_call.
  repeat (destruct (decide _); [congruence|]). eauto.
Qed.

(** C4. A capability other than the four that have a validator is allowed
    as it is, with an empty reason and no warning, whatever its parameters
    are; so is [search_files], although its policy declares blocked
    patterns. *)
Theorem unlisted_tool_allowed (h : host) (tool : string) (ps : params) :
  ~ In tool ["read_file"; "write_to_file"; "execute_command";
             "browser_navigate"] ->
  validate_tool_call h tool ps
  = Returns {| allowed := true; reason := ""; warnings := [];
               modified_params := ∅ |}
  /\ (forall ps',
        validate_tool_call h "search_files" ps'
        = Returns {| allowed := true; reason := ""; warnings := [];
                     modified_params := ∅ |})
  /\ get_list (generate_security_policy "search_files") "blocked_patterns"
     = Returns ["/etc/"; "/proc/"; "/sys/"; "~/.ssh"; "~/.gnupg"; "/root/"].
Proof.
  intros Hn. split; [|split; [intros ps'; reflexivity|reflexivity]].
  unfold validate_tool_call.
  repeat (destruct (decide _) as [->|?]; [exfalso; apply Hn; simpl; tauto|]).
  reflexivity.
Qed.

Lemma unlisted_tool_allowed_witness :
  validate_tool_call bare_posix_host "apply_diff"
    {[ "path" := VStr "/etc/passwd" ]}
  = Returns {| allowed := true; reason := ""; warnings := [];
               modified_params := ∅ |}.
Proof.
  apply (unlisted_tool_allowed bare_posix_host "apply_diff"
           {[ "path" := VStr "/etc/passwd" ]}).
  simpl. intros [H|[H|[H|[H|[]]]]]; discriminate H.
Defined.

End PolicyEngineSpec.

(** * Properties of the risk classifier *)

Module RiskSpec.
Import Py PolicyEngine Risk.

(** C10. At the security level [high], [execute_command] and
    [browser_navigate] are both of risk [high], whatever their policies are,
    and the compatibility issues of the pair are not empty: they hold the
    issue about command execution combined with browser automation. The
    same is read off the result of [_validate_tool_security] when both tools
    were generated. *)
Theorem command_and_browser_high_risk (pol : policy) :
  _assess_tool_risk "execute_command" pol (VStr "high") = "high"
  /\ _assess_tool_risk "browser_navigate" pol (VStr "high") = "high"
  /\ _check_tool_compatibility ["execute_command"; "browser_navigate"]
     = ["Combining command execution with browser automation may have security implications"]
  /\ exists r,
       _validate_tool_security ["execute_command"; "browser_navigate"]
         (generated_for ["execute_command"; "browser_navigate"])
         {[ "security_level" := VStr "high" ]}
       = Returns r
       /\ snd <$> (validations r !! "execute_command") = Some "high"
       /\ snd <$> (validations r !! "browser_navigate") = Some "high"
       /\ compatibility_issues r
          = ["Combining command execution with browser automation may have security implications"]
       /\ compatibility_issues r <> [].
Proof.
  split; [reflexivity|]. split; [reflexivity|]. split; [reflexivity|].
  eexists. split; [vm_compute; reflexivity|].
  repeat split; try (vm_compute; reflexivity). discriminate.
Qed.

End RiskSpec.

(** * Properties of the static source validator *)

Module CodeValidatorSpec.
Import Py CodeValidator.

Lemma extend_nil s : extend s [] [] = s.
Proof. destruct s. unfold extend. simpl. rewrite !app_nil_r. reflexivity. Qed.

Lemma extend_extend s e1 i1 e2 i2 :
  extend (extend s e1 i1) e2 i2 = extend s (e1 ++ e2) (i1 ++ i2).
Proof. unfold extend. simpl. rewrite <- !app_assoc. reflexivity. Qed.

Lemma add_error_extend s e : add_error s e = extend s [e] [].
Proof. unfold add_error, extend. rewrite app_nil_r. reflexivity. Qed.

Lemma add_import_extend s m : add_import s m = extend s [] [m].
Proof. unfold add_import, extend. rewrite app_nil_r. reflexivity. Qed.

(** What one call, one alias and one [from] import add. *)
Lemma own_errors_Call lineno func args :
  own_errors (Call lineno func args)
  = match func with
    | Name id =>
        if bool_decide (id ∈ FORBIDDEN_CALLS)
        then [forbidden_call_message lineno id] else []
    | _ => []
    end.
Proof.
  unfold own_errors. simpl. destruct func; try reflexivity.
  simpl. destruct (bool_decide _); reflexivity.
Qed.

Lemma visit_Call_check_extend lineno func args s :
  visit_Call_check lineno func s
  = extend s (own_errors (Call lineno func args))
             (own_imports (Call lineno func args)).
Proof.
  unfold own_errors, own_imports. simpl.
  destruct func; simpl; try (symmetry; apply extend_nil).
  destruct (bool_decide _); simpl; [|symmetry; apply extend_nil].
  apply add_error_extend.
Qed.

Lemma visit_Import_alias_extend lineno s a :
  visit_Import_alias lineno s a
  = extend s
      (if bool_decide (root_segment (name a) ∈ ALLOWED_IMPORTS) then []
       else [unauthorized_import_message lineno (name a)])
      [name a].
Proof.
  unfold visit_Import_alias. destruct (bool_decide _).
  - apply add_import_extend.
  - rewrite add_error_extend, add_import_extend, extend_extend. reflexivity.
Qed.

Lemma fold_Import_alias_extend lineno names s :
  fold_left (visit_Import_alias lineno) names s
  = extend s
      (flat_map
         (fun a =>
            if bool_decide (root_segment (name a) ∈ ALLOWED_IMPORTS) then []
            else [unauthorized_import_message lineno (name a)])
         names)
      (map name names).
Proof.
  revert s. induction names as [|a names IH]; intros s; simpl.
  - symmetry. apply extend_nil.
  - rewrite IH, visit_Import_alias_extend, extend_extend. reflexivity.
Qed.

Lemma own_Import lineno names :
  own_errors (Import lineno names)
  = flat_map
      (fun a =>
         if bool_decide (root_segment (name a) ∈ ALLOWED_IMPORTS) then []
         else [unauthorized_import_message lineno (name a)])
      names
  /\ own_imports (Import lineno names) = map name names.
Proof.
  unfold own_errors, own_imports. simpl.
  rewrite fold_Import_alias_extend. split; reflexivity.
Qed.

Lemma visit_ImportFrom_check_extend lineno module s :
  visit_ImportFrom_check lineno module s
  = extend s
      (self_errors (visit_ImportFrom_check lineno module new_validator))
      (self_imports (visit_ImportFrom_check lineno module new_validator)).
Proof.
  unfold visit_ImportFrom_check.
  destruct module as [m|]; [|symmetry; apply extend_nil].
  destruct (bool_decide (m = "")); [symmetry; apply extend_nil|].
  destruct (bool_decide _); simpl.
  - apply add_import_extend.
  - rewrite add_error_extend, add_import_extend, extend_extend. reflexivity.
Qed.

Lemma own_ImportFrom lineno m names :
  m <> "" ->
  own_errors (ImportFrom lineno (Some m) names)
  = (if bool_decide (root_segment m ∈ ALLOWED_IMPORTS) then []
     else [unauthorized_import_from_message lineno m])
  /\ own_imports (ImportFrom lineno (Some m) names) = [m].
Proof.
  intros Hm. unfold own_errors, own_imports. simpl.
  rewrite bool_decide_eq_false_2 by exact Hm.
  destruct (bool_decide _); split; reflexivity.
Qed.

(** The children of a node are visited one after the other. *)
Lemma fold_visit_extend children :
  Forall
    (fun c => forall s,
       visit c s = extend s (flat_map own_errors (preorder c))
                            (flat_map own_imports (preorder c)))
    children ->
  forall s,
    fold_left (fun s c => visit c s) children s
    = extend s (flat_map own_errors (flat_map preorder children))
               (flat_map own_imports (flat_map preorder children)).
Proof.
  induction 1 as [|c children Hc _ IH]; intros s; simpl.
  - symmetry. apply extend_nil.
  - rewrite IH, Hc, extend_extend, !flat_map_app. reflexivity.
Qed.

(** The visit of a tree appends, for each node in the order of the visit,
    what that node adds; the flag [in_function_def] is restored. *)
Lemma visit_extend n :
  forall s,
    visit n s = extend s (flat_map own_errors (preorder n))
                         (flat_map own_imports (preorder n)).
Proof.
  induction n using node_induction; intros s.
  - simpl. symmetry. apply extend_nil.
  - simpl. rewrite IHn. reflexivity.
  - cbn [visit preorder flat_map].
    rewrite (fold_visit_extend _ H), IHn.
    rewrite (visit_Call_check_extend lineno n args).
    rewrite !extend_extend, !flat_map_app, !app_assoc. reflexivity.
  - cbn [visit preorder flat_map]. rewrite !app_nil_r.
    unfold own_errors, own_imports. simpl.
    rewrite fold_Import_alias_extend.
    rewrite (fold_Import_alias_extend _ _ new_validator). reflexivity.
  - cbn [visit preorder flat_map]. rewrite !app_nil_r.
    apply visit_ImportFrom_check_extend.
  - cbn [visit preorder flat_map]. rewrite (fold_visit_extend _ H).
    reflexivity.
  - cbn [visit preorder flat_map]. rewrite (fold_visit_extend _ H).
    reflexivity.
  - cbn [visit preorder flat_map]. rewrite (fold_visit_extend _ H).
    reflexivity.
Qed.

(** The result on a source that parses. *)
Lemma validate_parsed ast_parse code tree :
  ast_parse code = Parsed tree ->
  exists r,
    validate_python_code ast_parse code = Returns r
    /\ errors r = flat_map own_errors (preorder tree)
    /\ imports_found r = flat_map own_imports (preorder tree)
    /\ valid r = bool_decide (length (errors r) = 0%nat).
Proof.
  intros Hp. unfold validate_python_code. rewrite Hp, visit_extend.
  eexists. split; [reflexivity|]. simpl. repeat split.
Qed.

Lemma valid_false_of_error (r : ValidationResult) e :
  valid r = bool_decide (length (errors r) = 0%nat) ->
  In e (errors r) -> valid r = false.
Proof.
  intros -> Hin. apply bool_decide_eq_false_2.
  destruct (errors r); [destruct Hin|discriminate].
Qed.

Lemma root_segment_submodule root sub :
  contains "." root = false ->
  root_segment (root +:+ "." +:+ sub) = root.
Proof.
  unfold root_segment. induction root as [|c root IH]; intros Hc.
  - reflexivity.
  - simpl in Hc. apply orb_false_elim in Hc as [Hc1 Hc2].
    assert (Ascii.eqb c "." = false) as Hne.
    { destruct (Ascii.eqb c ".") eqn:E; [|reflexivity].
      apply Ascii.eqb_eq in E. subst c.
      destruct root; discriminate Hc1. }
    simpl. rewrite Hne.
    specialize (IH Hc2).
    destruct (split "." (root +:+ "." +:+ sub)); congruence.
Qed.

(** The validation returns unless the parser raises something else than a
    syntax error. *)
Lemma validate_returns ast_parse code :
  (forall e, ast_parse code <> ParseRaises e) ->
  exists r, validate_python_code ast_parse code = Returns r.
Proof.
  intros Hp. unfold validate_python_code.
  destruct (ast_parse code) as [tree|lineno msg|e]; eauto.
  destruct (Hp e). reflexivity.
Qed.

(** The scenarios of the specification, each on the tree of its source. *)
Example scenario_env_lookup :
  validate_python_code
    (fun _ =>
       Parsed (Other [Import 1 [Alias "os" None];
                      Other [Name "api_key";
                             Call 2 (Attribute (Name "os") "getenv")
                               [Other []]]]))
    ("import os" +:+ String newline "api_key = os.getenv('K')"
     +:+ String newline "")
  = Returns {| valid := true; errors := []; warnings := [];
               imports_found := ["os"] |}.
Proof. vm_compute. reflexivity. Qed.

Example scenario_hardcoded_secret :
  validate_python_code
    (fun _ => Parsed (Other [Other [Name "api_key"; Other []]]))
    ("api_key = " +:+ String dquote "sk-123" +:+ String dquote ""
     +:+ String newline "")
  = Returns
      {| valid := true; errors := [];
         warnings :=
           ["Line 1: Potential hardcoded secret detected. Use os.getenv() instead.";
            "No imports detected - code may be incomplete"];
         imports_found := [] |}.
Proof. vm_compute. reflexivity. Qed.

Example scenario_eval :
  validate_python_code
    (fun _ => Parsed (Other [Other [Call 1 (Name "eval") [Other []]]]))
    ("eval(" +:+ String dquote "1+1" +:+ String dquote ")"
     +:+ String newline "")
  = Returns
      {| valid := false;
         errors := ["Line 1: Forbidden function call: eval"];
         warnings := ["No imports detected - code may be incomplete"];
         imports_found := [] |}.
Proof. vm_compute. reflexivity. Qed.

(** C5. In the result of a validation, [valid] holds exactly when the list
    of errors is empty. The warnings have no part in it: two results with
    the same errors, of whatever sources and parsers, have the same
    [valid]. *)
Theorem valid_iff_no_errors (ast_parse : string -> parse_result)
    (code : string) (r : ValidationResult) :
  validate_python_code ast_parse code = Returns r ->
  (valid r = true <-> errors r = [])
  /\ (forall ast_parse' code' r',
        validate_python_code ast_parse' code' = Returns r' ->
        errors r' = errors r -> valid r' = valid r).
Proof.
  assert (forall p c x, validate_python_code p c = Returns x ->
            valid x = bool_decide (length (errors x) = 0%nat)) as Hv.
  { intros p c x. unfold validate_python_code.
    destruct (p c); intros Hx; inversion Hx; reflexivity. }
  intros Hr. split.
  - rewrite (Hv _ _ _ Hr), bool_decide_eq_true. apply length_zero_iff_nil.
  - intros p' c' r' Hr' He. rewrite (Hv _ _ _ Hr), (Hv _ _ _ Hr'), He.
    reflexivity.
Qed.

Lemma valid_iff_no_errors_witness :
  let r :=
    {| valid := true; errors := [];
       warnings :=
         ["Line 1: Use logging instead of print() for production code";
          "No imports detected - code may be incomplete"];
       imports_found := [] |} in
  (valid r = true <-> errors r = [])
  /\ (forall ast_parse' code' r',
        validate_python_code ast_parse' code' = Returns r' ->
        errors r' = errors r -> valid r' = valid r).
Proof.
  apply (valid_iff_no_errors
           (fun _ => Parsed (Other [Other [Call 1 (Name "print")
                                             [Other []]]]))
           "print(1)").
  vm_compute. reflexivity.
Defined.

(** C6. On a source that parses, the errors are what the nodes of the tree
    add, in the order of the visit, and a call adds the forbidden-call
    diagnostic, with its line and the name, exactly when its callee is a
    bare name of [FORBIDDEN_CALLS]. Hence a bare forbidden call at a line
    leaves the diagnostic of that line among the errors and makes the result
    invalid, and a call through an attribute adds nothing, whatever the
    attribute is called. *)
Theorem forbidden_bare_call_flagged (ast_parse : string -> parse_result)
    (code : string) (tree : node) :
  ast_parse code = Parsed tree ->
  exists r,
    validate_python_code ast_parse code = Returns r
    /\ errors r = flat_map own_errors (preorder tree)
    /\ (forall lineno func args,
          (exists id, func = Name id /\ id ∈ FORBIDDEN_CALLS
                      /\ own_errors (Call lineno func args)
                         = ["Line " +:+ pretty lineno
                            +:+ ": Forbidden function call: " +:+ id])
          \/ ((forall id, func = Name id -> id ∉ FORBIDDEN_CALLS)
              /\ own_errors (Call lineno func args) = []))
    /\ (forall lineno id args,
          In (Call lineno (Name id) args) (preorder tree) ->
          id ∈ FORBIDDEN_CALLS ->
          In ("Line " +:+ pretty lineno
              +:+ ": Forbidden function call: " +:+ id) (errors r)
          /\ valid r = false)
    /\ (forall lineno obj attr args,
          own_errors (Call lineno (Attribute obj attr) args) = []).
Proof.
  intros Hp. destruct (validate_parsed _ _ _ Hp) as (r & Hr & He & _ & Hv).
  exists r. split; [exact Hr|]. split; [exact He|]. split; [|split].
  - intros lineno func args. rewrite own_errors_Call.
    destruct func; try (right; split; [discriminate|reflexivity]).
    destruct (bool_decide (id ∈ FORBIDDEN_CALLS)) eqn:Hb.
    + left. exists id. apply bool_decide_eq_true in Hb. auto.
    + right. apply bool_decide_eq_false in Hb.
      split; [|reflexivity]. intros id' [= <-]. exact Hb.
  - intros lineno id args Hin Hf.
    assert (In (forbidden_call_message lineno id) (errors r)) as Hm.
    { rewrite He. apply in_flat_map. eexists. split; [exact Hin|].
      rewrite own_errors_Call, bool_decide_eq_true_2 by exact Hf.
      left. reflexivity. }
    split; [exact Hm|]. exact (valid_false_of_error _ _ Hv Hm).
  - intros. apply own_errors_Call.
Qed.

Lemma forbidden_bare_call_flagged_witness :
  exists r,
    validate_python_code
      (fun _ =>
         Parsed (Other [Other [Call 1 (Name "eval") [Other []]];
                        Other [Call 2 (Attribute (Name "agent") "compile")
                                 []]]))
      "eval(x)" = Returns r
    /\ errors r = ["Line 1: Forbidden function call: eval"]
    /\ valid r = false.
Proof.
  destruct (forbidden_bare_call_flagged
              (fun _ =>
                 Parsed (Other [Other [Call 1 (Name "eval") [Other []]];
                                Other [Call 2
                                         (Attribute (Name "agent") "compile")
                                         []]]))
              "eval(x)" _ eq_refl) as (r & Hr & He & _ & Hin & _).
  exists r. split; [exact Hr|]. split; [rewrite He; vm_compute; reflexivity|].
  apply (Hin 1%Z "eval" [Other []]).
  - simpl. tauto.
  - vm_compute. reflexivity.
Defined.

(** C7, as the claim states it, fails: [from . import subprocess] has no
    module path ([node.module] is [None]), so that nothing is recorded and
    nothing is checked. The source is valid, although [subprocess] is not in
    [ALLOWED_IMPORTS]. *)
Lemma relative_import_unchecked :
("subprocess" ∉ ALLOWED_IMPORTS)
  /\ validate_python_code
       (fun _ =>
          Parsed (Other [ImportFrom 1 None [Alias "subprocess" None]]))
       "from . import subprocess"
     = Returns
         {| valid := true; errors := [];
            warnings := ["No imports detected - code may be incomplete"];
            imports_found := [] |}.
Proof.
  split; [|vm_compute; reflexivity].
  apply (bool_decide_unpack _). vm_compute. exact I.
Qed.

(** C7, amended. On a source that parses, an [import] adds, for each of its
    aliases, the unauthorized-import diagnostic exactly when the root
    segment of the alias is not in [ALLOWED_IMPORTS], and a [from] import
    that has a module path adds it exactly when the root segment of that
    path is not; the diagnostic ends in the module path. Hence a source
    that imports a module path whose root is outside the list is invalid,
    and a submodule of an allowed root adds no error. A [from] import
    without a module path, as a relative import from the package itself,
    adds no error, whatever it imports. *)
Theorem unauthorized_import_flagged (ast_parse : string -> parse_result)
    (code : string) (tree : node) :
  ast_parse code = Parsed tree ->
  exists r,
    validate_python_code ast_parse code = Returns r
    /\ errors r = flat_map own_errors (preorder tree)
    /\ (forall lineno names,
          own_errors (Import lineno names)
          = flat_map
              (fun a =>
                 if bool_decide (root_segment (name a) ∈ ALLOWED_IMPORTS)
                 then []
                 else ["Line " +:+ pretty lineno
                       +:+ ": Unauthorized import: " +:+ name a])
              names)
    /\ (forall lineno m names,
          m <> "" ->
          own_errors (ImportFrom lineno (Some m) names)
          = if bool_decide (root_segment m ∈ ALLOWED_IMPORTS) then []
            else ["Line " +:+ pretty lineno
                  +:+ ": Unauthorized import from: " +:+ m])
    /\ (forall lineno names a,
          In (Import lineno names) (preorder tree) -> In a names ->
          root_segment (name a) ∉ ALLOWED_IMPORTS ->
          In ("Line " +:+ pretty lineno
              +:+ ": Unauthorized import: " +:+ name a) (errors r)
          /\ valid r = false)
    /\ (forall lineno m names,
          In (ImportFrom lineno (Some m) names) (preorder tree) -> m <> "" ->
          root_segment m ∉ ALLOWED_IMPORTS ->
          In ("Line " +:+ pretty lineno
              +:+ ": Unauthorized import from: " +:+ m) (errors r)
          /\ valid r = false)
    /\ (forall lineno root sub,
          contains "." root = false -> root ∈ ALLOWED_IMPORTS ->
          own_errors (Import lineno [Alias (root +:+ "." +:+ sub) None]) = []
          /\ own_errors (ImportFrom lineno (Some (root +:+ "." +:+ sub)) [])
             = [])
    /\ (forall lineno names,
          own_errors (ImportFrom lineno None names) = []
          /\ own_errors (ImportFrom lineno (Some "") names) = []).
Proof.
  intros Hp. destruct (validate_parsed _ _ _ Hp) as (r & Hr & He & _ & Hv).
  exists r. split; [exact Hr|]. split; [exact He|].
  split; [|split; [|split; [|split; [|split]]]];
    [..|intros; split; reflexivity].
  - intros. apply own_Import.
  - intros lineno m names Hm. apply (own_ImportFrom lineno m names Hm).
  - intros lineno names a Hin Ha Hroot.
    match goal with |- In ?m _ /\ _ => assert (In m (errors r)) as Hmsg end.
    { rewrite He. apply in_flat_map. eexists. split; [exact Hin|].
      rewrite (proj1 (own_Import lineno names)).
      apply in_flat_map. exists a. split; [exact Ha|].
      rewrite bool_decide_eq_false_2 by exact Hroot. left. reflexivity. }
    split; [exact Hmsg|]. exact (valid_false_of_error _ _ Hv Hmsg).
  - intros lineno m names Hin Hm Hroot.
    match goal with |- In ?m _ /\ _ => assert (In m (errors r)) as Hmsg end.
    { rewrite He. apply in_flat_map. eexists. split; [exact Hin|].
      rewrite (proj1 (own_ImportFrom lineno m names Hm)).
      rewrite bool_decide_eq_false_2 by exact Hroot. left. reflexivity. }
    split; [exact Hmsg|]. exact (valid_false_of_error _ _ Hv Hmsg).
  - intros lineno root sub Hdot Hroot. split.
    + rewrite (proj1 (own_Import _ _)). simpl.
      rewrite (root_segment_submodule _ _ Hdot).
      rewrite bool_decide_eq_true_2 by exact Hroot. reflexivity.
    + assert (root +:+ "." +:+ sub <> "") as Hne
        by (destruct root; discriminate).
      rewrite (proj1 (own_ImportFrom lineno _ [] Hne)).
      rewrite (root_segment_submodule _ _ Hdot).
      rewrite bool_decide_eq_true_2 by exact Hroot. reflexivity.
Qed.

Lemma unauthorized_import_flagged_witness :
  exists r,
    validate_python_code
      (fun _ =>
         Parsed (Other [Import 1 [Alias "os.path" None];
                        Import 2 [Alias "socket" None];
                        ImportFrom 3 (Some "pickle.x") [Alias "y" None]]))
      "import os.path" = Returns r
    /\ errors r = ["Line 2: Unauthorized import: socket";
                   "Line 3: Unauthorized import from: pickle.x"]
    /\ valid r = false.
Proof.
  destruct (unauthorized_import_flagged
              (fun _ =>
                 Parsed (Other [Import 1 [Alias "os.path" None];
                                Import 2 [Alias "socket" None];
                                ImportFrom 3 (Some "pickle.x")
                                  [Alias "y" None]]))
              "import os.path" _ eq_refl)
    as (r & Hr & He & _ & _ & Hin & _).
  exists r. split; [exact Hr|]. split; [rewrite He; vm_compute; reflexivity|].
  apply (Hin 2%Z [Alias "socket" None] (Alias "socket" None)).
  - simpl. tauto.
  - simpl. tauto.
  - vm_compute. intros H. discriminate H.
Defined.

(** C8, as the claim states it, fails: the validation catches
    [SyntaxError] and nothing else. On a text that holds a null character
    the parser of CPython 3.11 raises [ValueError], and the exception
    reaches the caller: no result is returned. *)
Lemma parser_value_error_escapes :
  validate_python_code (fun _ => ParseRaises ValueError)
    ("x = 1" +:+ String "000"%char EmptyString)
  = Raises ValueError.
Proof. reflexivity. Qed.

(** C8, amended. When the parser raises [SyntaxError], the validation
    returns: the result is invalid, its only error is the syntax error, with
    the line that the parser reports written in decimal ([None] when the
    parser reports none) and then its message, and there is no warning and
    no import, as no scan is run. When the parser raises another exception,
    the validation raises it. *)
Theorem syntax_error_single_diagnostic (ast_parse : string -> parse_result)
    (code : string) :
  (forall (l : Z) (msg : string),
     ast_parse code = SyntaxError (Some l) msg ->
     validate_python_code ast_parse code
     = Returns
         {| valid := false;
            errors := ["Syntax error at line " +:+ pretty l
                       +:+ ": " +:+ msg];
            warnings := [];
            imports_found := [] |})
  /\ (forall msg : string,
        ast_parse code = SyntaxError None msg ->
        validate_python_code ast_parse code
        = Returns
            {| valid := false;
               errors := ["Syntax error at line None: " +:+ msg];
               warnings := [];
               imports_found := [] |})
  /\ (forall e : exn,
        ast_parse code = ParseRaises e ->
        validate_python_code ast_parse code = Raises e).
Proof.
  unfold validate_python_code.
  split; [|split]; intros ? ; [intros ?|..]; intros Hp; rewrite Hp;
    reflexivity.
Qed.

Lemma syntax_error_single_diagnostic_witness :
  validate_python_code
    (fun _ => SyntaxError (Some 12%Z) "'(' was never closed")
    "print("
  = Returns
      {| valid := false;
         errors := ["Syntax error at line 12: '(' was never closed"];
         warnings := [];
         imports_found := [] |}.
Proof.
  apply (proj1 (syntax_error_single_diagnostic
                  (fun _ => SyntaxError (Some 12%Z) "'(' was never closed")
                  "print(") 12%Z "'(' was never closed").
  reflexivity.
Defined.

(** C9, as the claim states it, fails: for [import os.path] the whole path
    is recorded, not its root segment [os]. *)
Lemma import_recorded_with_whole_path :
  root_segment "os.path" = "os"
  /\ validate_python_code
       (fun _ => Parsed (Other [Import 1 [Alias "os.path" None]]))
       "import os.path"
     = Returns {| valid := true; errors := []; warnings := [];
                  imports_found := ["os.path"] |}
  /\ ~ In "os" ["os.path"].
Proof.
  split; [reflexivity|]. split; [vm_compute; reflexivity|].
  simpl. intros [H|[]]. discriminate H.
Qed.

(** C9, amended. On a source that parses, [imports_found] holds, in the
    order of the visit, the module path of each import as it is written:
    the name of each alias of an [import], and the module path of a [from]
    import that has one. The root segment serves the check against
    [ALLOWED_IMPORTS] only. *)
Theorem imports_found_whole_paths (ast_parse : string -> parse_result)
    (code : string) (tree : node) :
  ast_parse code = Parsed tree ->
  exists r,
    validate_python_code ast_parse code = Returns r
    /\ imports_found r = flat_map own_imports (preorder tree)
    /\ (forall lineno names,
          own_imports (Import lineno names) = map name names)
    /\ (forall lineno m names,
          m <> "" -> own_imports (ImportFrom lineno (Some m) names) = [m])
    /\ (forall lineno names,
          own_imports (ImportFrom lineno None names) = []
          /\ own_imports (ImportFrom lineno (Some "") names) = [])
    /\ (forall n,
          (forall lineno names, n <> Import lineno names) ->
          (forall lineno m names, n <> ImportFrom lineno m names) ->
          own_imports n = []).
Proof.
  intros Hp. destruct (validate_parsed _ _ _ Hp) as (r & Hr & _ & Hi & _).
  exists r. split; [exact Hr|]. split; [exact Hi|].
  split; [|split; [|split]].
  - intros. apply own_Import.
  - intros lineno m names Hm. apply (own_ImportFrom lineno m names Hm).
  - intros. split; reflexivity.
  - intros n H1 H2.
    destruct n as [|?|? f ?|lineno names|lineno module names|?|?|?];
      try reflexivity.
    + unfold own_imports. simpl. destruct f; try reflexivity.
      simpl. destruct (bool_decide _); reflexivity.
    + destruct (H1 lineno names). reflexivity.
    + destruct (H2 lineno module names). reflexivity.
Qed.

Lemma imports_found_whole_paths_witness :
  exists r,
    validate_python_code
      (fun _ =>
         Parsed (Other [Import 1 [Alias "os.path" None; Alias "json" None];
                        ImportFrom 2 (Some "langchain.tools")
                          [Alias "tool" None];
                        ImportFrom 3 None [Alias "helpers" None]]))
      "import os.path, json" = Returns r
    /\ imports_found r = ["os.path"; "json"; "langchain.tools"].
Proof.
  destruct (imports_found_whole_paths
              (fun _ =>
                 Parsed (Other [Import 1 [Alias "os.path" None;
                                          Alias "json" None];
                                ImportFrom 2 (Some "langchain.tools")
                                  [Alias "tool" None];
                                ImportFrom 3 None [Alias "helpers" None]]))
              "import os.path, json" _ eq_refl)
    as (r & Hr & Hi & _).
  exists r. split; [exact Hr|]. rewrite Hi. vm_compute. reflexivity.
Defined.

End CodeValidatorSpec.

(** * Further properties of the policy engine *)

Module PolicyEngineMore.
Import Py PolicyEngine PolicyEngineSpec.

Lemma find_matching ic pats s :
  (exists pat, In pat pats /\ matches ic pat s = true)
  <-> exists q, List.find (fun x => matches ic x s) pats = Some q.
Proof.
  split.
  - intros (pat & Hin & Hm).
    destruct (List.find _ pats) as [q|] eqn:Hf; [eauto|].
    pose proof (find_none _ _ Hf pat Hin) as Hn. simpl in Hn. congruence.
  - intros (q & Hq). apply find_some in Hq. eauto.
Qed.

(** X1. No command that is text is ever allowed: the call on
    [execute_command] returns a denial, without a warning, whose reason
    names a blocked pattern of the policy that is found in the command. *)
Theorem execute_command_never_allows (h : host) (ps : params) (s : string) :
  get ps "command" = VStr s ->
  exists pat,
    In pat command_patterns /\ matches true pat s = true
    /\ validate_tool_call h "execute_command" ps
       = Returns
           {| allowed := false;
              reason := "Command blocked by security policy: " +:+ pat;
              warnings := [];
              modified_params := ∅ |}.
Proof.
  intros Hs.
  destruct (execute_command_text_denied h ps s Hs) as (pat & Hf & Hd).
  apply find_some in Hf as [Hin Hm]. exists pat. auto.
Qed.

Lemma execute_command_never_allows_witness :
  exists pat,
    In pat command_patterns /\ matches true pat "ls -la" = true
    /\ validate_tool_call bare_posix_host "execute_command"
         {[ "command" := VStr "ls -la" ]}
       = Returns
           {| allowed := false;
              reason := "Command blocked by security policy: " +:+ pat;
              warnings := [];
              modified_params := ∅ |}.
Proof.
  apply (execute_command_never_allows bare_posix_host
           {[ "command" := VStr "ls -la" ]} "ls -la").
  vm_compute. reflexivity.
Defined.

(** X2. The call on [browser_navigate] returns a decision for every
    parameter mapping, whatever the library does; when [urlparse] raises,
    the decision is a denial whose reason carries the text of the
    exception. *)
Theorem browser_navigate_always_decides (h : host) (ps : params) :
  (exists d, validate_tool_call h "browser_navigate" ps = Returns d)
  /\ (forall e,
        urlparse h (get ps "url") = Raises e ->
        validate_tool_call h "browser_navigate" ps
        = Returns
            {| allowed := false;
               reason := "Invalid URL format: " +:+ exn_text h e;
               warnings := [];
               modified_params := ∅ |}).
Proof.
  rewrite call_browser_navigate. unfold _validate_browser_navigate. split.
  - destruct (browser_navigate_try _ _ _ _); eauto.
  - intros e He. unfold browser_navigate_try. rewrite He. reflexivity.
Qed.

Lemma browser_navigate_always_decides_witness :
  validate_tool_call bare_posix_host "browser_navigate"
    {[ "url" := VInt 7 ]}
  = Returns
      {| allowed := false;
         reason := "Invalid URL format: No module named 'urllib'";
         warnings := [];
         modified_params := ∅ |}.
Proof.
  apply (proj2 (browser_navigate_always_decides bare_posix_host
                  {[ "url" := VInt 7 ]}) ImportError).
  reflexivity.
Defined.

(** X3. When [urlparse] returns a scheme and a network location, the call on
    [browser_navigate] allows exactly when the scheme is [http] or [https]
    and no blocked domain occurs in the network location as a substring; an
    allowed call carries no warning. A scheme that is not allowed is the
    reason given even when the location is blocked too. *)
Theorem browser_navigate_decision (h : host) (ps : params)
    (scheme netloc : string) :
  urlparse h (get ps "url") = Returns (scheme, netloc) ->
  exists d,
    validate_tool_call h "browser_navigate" ps = Returns d
    /\ (allowed d = true
        <-> (scheme = "http" \/ scheme = "https")
            /\ forall dom,
                 In dom ["localhost"; "127.0.0.1"; "0.0.0.0"; "file://";
                         "internal"] ->
                 contains dom netloc = false)
    /\ (allowed d = true -> d = initial_decision)
    /\ (scheme <> "http" -> scheme <> "https" ->
        reason d = "URL scheme not allowed: " +:+ scheme).
Proof.
  intros Hu. rewrite call_browser_navigate.
  unfold _validate_browser_navigate, browser_navigate_try.
  rewrite Hu, bind_returns.
  assert (get_list browser_navigate_policy "allowed_schemes"
          = Returns ["http"; "https"]) as -> by reflexivity.
  rewrite bind_returns.
  assert (get_list browser_navigate_policy "blocked_domains"
          = Returns ["localhost"; "127.0.0.1"; "0.0.0.0"; "file://";
                     "internal"]) as -> by reflexivity.
  rewrite bind_returns. unfold mem.
  destruct (bool_decide (scheme ∈ ["http"; "https"])) eqn:Hs; simpl negb;
    cbv iota.
  - apply bool_decide_eq_true in Hs.
    assert (scheme = "http" \/ scheme = "https") as Hs'.
    { apply list_elem_of_In in Hs. simpl in Hs.
      destruct Hs as [E|[E|[]]]; [left|right]; congruence. }
    destruct (existsb _ _) eqn:He.
    + eexists. split; [reflexivity|]. simpl.
      split; [|split; [discriminate|intros; destruct Hs'; congruence]].
      split; [discriminate|]. intros [_ Hd].
      apply existsb_exists in He as (dom & Hin & Hc).
      rewrite (Hd dom Hin) in Hc. discriminate Hc.
    + eexists. split; [reflexivity|]. simpl.
      split; [|split; [reflexivity|intros; destruct Hs'; congruence]].
      split; [|reflexivity]. intros _. split; [exact Hs'|].
      intros dom Hin.
      destruct (contains dom netloc) eqn:Hc; [|reflexivity].
      assert (existsb (fun blocked_domain => contains blocked_domain netloc)
                ["localhost"; "127.0.0.1"; "0.0.0.0"; "file://"; "internal"]
              = true) as Ht
        by (apply existsb_exists; exists dom; split; assumption).
      rewrite Ht in He. discriminate He.
  - apply bool_decide_eq_false in Hs.
    eexists. split; [reflexivity|]. simpl.
    split; [|split; [discriminate|reflexivity]].
    split; [discriminate|]. intros [Hs' _]. destruct Hs.
    apply list_elem_of_In. destruct Hs' as [-> | ->]; simpl; tauto.
Qed.

Lemma browser_navigate_decision_witness :
  exists d,
    validate_tool_call
      {| path_suffix := posix_suffix;
         urlparse := fun _ => Returns ("https", "docs.internal.example.com");
         exn_text := fun _ => "" |}
      "browser_navigate" {[ "url" := VStr "https://docs.internal.example.com/" ]}
    = Returns d
    /\ allowed d = false
    /\ reason d = "Access to domain blocked: docs.internal.example.com".
Proof.
  destruct (browser_navigate_decision
              {| path_suffix := posix_suffix;
                 urlparse :=
                   fun _ => Returns ("https", "docs.internal.example.com");
                 exn_text := fun _ => "" |}
              {[ "url" := VStr "https://docs.internal.example.com/" ]}
              "https" "docs.internal.example.com" eq_refl)
    as (d & Hd & _).
  exists d. split; [exact Hd|].
  vm_compute in Hd. injection Hd as <-. split; reflexivity.
Defined.

(** X4. With a path and a content that are text, when the content has a
    UTF-8 encoding, of [n] bytes, the call on [write_to_file] returns, and
    it denies exactly when a blocked path pattern is found in the path or
    [n] is more than 10485760; it never warns, and an allowed call is
    returned unchanged. The encoding is taken outside any [try]: on a
    content that has none, [encode] raises [UnicodeEncodeError]. *)
Theorem write_to_file_decision (h : host) (ps : params) (p c : string)
    (n : Z) :
  get ps "path" = VStr p ->
  get ps "content" = VStr c ->
  encoded_len c = Returns n ->
  exists d,
    validate_tool_call h "write_to_file" ps = Returns d
    /\ (allowed d = false
        <-> (exists pat, In pat path_patterns /\ matches false pat p = true)
            \/ (10485760 < n)%Z)
    /\ warnings d = []
    /\ (allowed d = true -> d = initial_decision).
Proof.
  intros Hp Hc Hn. rewrite call_write_to_file. unfold _validate_write_file.
  rewrite Hp, Hc, write_to_file_blocked, bind_returns.
  rewrite (first_blocked_text _ _ _ path_patterns_compile), bind_returns.
  destruct (List.find _ path_patterns) as [q|] eqn:Hf.
  - eexists. split; [reflexivity|].
    cbn [allowed warnings reason deny initial_decision].
    split; [|split; [reflexivity|discriminate]].
    split; [intros _|reflexivity]. left. apply find_matching. eauto.
  - simpl as_text. rewrite bind_returns, Hn, bind_returns.
    assert (get_int write_to_file_policy "max_file_size"
            = Returns 10485760%Z) as -> by reflexivity.
    rewrite bind_returns.
    assert (~ exists pat, In pat path_patterns /\ matches false pat p = true)
      as Hno.
    { intros H. apply find_matching in H as [q Hq]. congruence. }
    destruct (10485760 <? n)%Z eqn:Hl.
    + apply Z.ltb_lt in Hl. eexists. split; [reflexivity|].
    cbn [allowed warnings reason deny initial_decision].
      split; [|split; [reflexivity|discriminate]].
      split; [intros _; right; exact Hl|reflexivity].
    + apply Z.ltb_ge in Hl. eexists. split; [reflexivity|].
    cbn [allowed warnings reason deny initial_decision].
      split; [|split; reflexivity].
      split; [discriminate|]. intros [H|H]; [destruct (Hno H)|lia].
Qed.

Lemma write_to_file_decision_witness :
  exists d,
    validate_tool_call bare_posix_host "write_to_file"
      {[ "path" := VStr "/root/test.txt"; "content" := VStr "test" ]}
    = Returns d
    /\ allowed d = false /\ warnings d = [].
Proof.
  destruct (write_to_file_decision bare_posix_host
              {[ "path" := VStr "/root/test.txt"; "content" := VStr "test" ]}
              "/root/test.txt" "test" 4)
    as (d & Hd & Hiff & Hw & _).
  - vm_compute. reflexivity.
  - vm_compute. reflexivity.
  - vm_compute. reflexivity.
  - exists d. split; [exact Hd|]. split; [|exact Hw].
    apply Hiff. left. exists "/root/". split; [simpl; tauto|].
    vm_compute. reflexivity.
Defined.

(** X5. The extension check of [read_file] is advisory. With a text path in
    which no blocked pattern is found, the call is allowed with an empty
    reason; it carries no warning when the lowercased suffix of the path is
    an allowed extension, and exactly one warning, naming the suffix,
    otherwise. *)
Theorem read_file_extension_advisory (h : host) (ps : params) (p : string) :
  get ps "path" = VStr p ->
  (forall pat, In pat path_patterns -> matches false pat p = false) ->
  exists d,
    validate_tool_call h "read_file" ps = Returns d
    /\ allowed d = true /\ reason d = ""
    /\ (In (lower (path_suffix h p))
          [".py"; ".md"; ".txt"; ".json"; ".yaml"; ".yml"; ".js"; ".ts";
           ".java"; ".cpp"; ".c"; ".h"] -> warnings d = [])
    /\ (~ In (lower (path_suffix h p))
            [".py"; ".md"; ".txt"; ".json"; ".yaml"; ".yml"; ".js"; ".ts";
             ".java"; ".cpp"; ".c"; ".h"] ->
        warnings d
        = ["File extension " +:+ lower (path_suffix h p)
           +:+ " may not be supported"]).
Proof.
  intros Hp Hno. rewrite call_read_file. unfold _validate_read_file.
  rewrite Hp, read_file_blocked, bind_returns.
  rewrite (first_blocked_text _ _ _ path_patterns_compile), bind_returns.
  destruct (List.find _ path_patterns) as [q|] eqn:Hf.
  { apply find_some in Hf as [Hin Hm]. rewrite (Hno q Hin) in Hm.
    discriminate Hm. }
  assert (has_key read_file_policy "allowed_extensions" = true) as ->
    by reflexivity.
  assert (get_list read_file_policy "allowed_extensions"
          = Returns [".py"; ".md"; ".txt"; ".json"; ".yaml"; ".yml"; ".js";
                     ".ts"; ".java"; ".cpp"; ".c"; ".h"]) as ->
    by reflexivity.
  simpl as_path. rewrite !bind_returns. unfold mem.
  destruct (bool_decide _) eqn:Hm.
  - apply bool_decide_eq_true, list_elem_of_In in Hm.
    eexists. split; [reflexivity|].
    cbn [allowed warnings reason warn initial_decision].
    split; [reflexivity|]. split; [reflexivity|].
    split; [reflexivity|]. intros Hn. destruct (Hn Hm).
  - apply bool_decide_eq_false in Hm.
    eexists. split; [reflexivity|].
    cbn [allowed warnings reason warn initial_decision].
    split; [reflexivity|]. split; [reflexivity|].
    split; [|reflexivity].
    intros Hin. destruct Hm. apply list_elem_of_In. exact Hin.
Qed.

Lemma read_file_extension_advisory_witness :
  exists d,
    validate_tool_call bare_posix_host "read_file"
      {[ "path" := VStr "archive/DATA.CSV" ]}
    = Returns d
    /\ allowed d = true
    /\ warnings d = ["File extension .csv may not be supported"].
Proof.
  destruct (read_file_extension_advisory bare_posix_host
              {[ "path" := VStr "archive/DATA.CSV" ]} "archive/DATA.CSV")
    as (d & Hd & Ha & _ & _ & Hw).
  - vm_compute. reflexivity.
  - intros pat Hin. simpl in Hin.
    repeat (destruct Hin as [<-|Hin]; [vm_compute; reflexivity|]).
    destruct Hin.
  - exists d. split; [exact Hd|]. split; [exact Ha|].
    apply Hw. vm_compute. intros H.
    repeat (destruct H as [H|H]; [discriminate H|]). exact H.
Defined.

Lemma get_list_insert_ne (k key : string) (v : pval) (pol : policy) :
  k <> key -> get_list (<[k:=v]> pol) key = get_list pol key.
Proof. intros H. unfold get_list. rewrite lookup_insert_ne by exact H. reflexivity. Qed.

Lemma get_int_insert_ne (k key : string) (v : pval) (pol : policy) :
  k <> key -> get_int (<[k:=v]> pol) key = get_int pol key.
Proof. intros H. unfold get_int. rewrite lookup_insert_ne by exact H. reflexivity. Qed.

Lemma has_key_insert_ne (k key : string) (v : pval) (pol : policy) :
  k <> key -> has_key (<[k:=v]> pol) key = has_key pol key.
Proof. intros H. unfold has_key. rewrite lookup_insert_ne by exact H. reflexivity. Qed.

(** X6. Every name has a policy, and every policy, the fallback included,
    carries a timeout between 10 and 60 seconds; a name outside the five of
    the table gets the fallback policy. *)
Theorem every_policy_has_timeout (tool : string) :
  (exists z,
     generate_security_policy tool !! "timeout" = Some (PInt z)
     /\ (10 <= z <= 60)%Z)
  /\ (~ In tool ["search_files"; "read_file"; "browser_navigate";
                 "execute_command"; "write_to_file"] ->
      generate_security_policy tool = default_policy).
Proof.
  destruct (decide (tool = "search_files")) as [->|N1].
  { split; [exists 30%Z; split; [reflexivity|lia]|].
    intros H. destruct H. simpl. tauto. }
  destruct (decide (tool = "read_file")) as [->|N2].
  { split; [exists 10%Z; split; [reflexivity|lia]|].
    intros H. destruct H. simpl. tauto. }
  destruct (decide (tool = "browser_navigate")) as [->|N3].
  { split; [exists 45%Z; split; [reflexivity|lia]|].
    intros H. destruct H. simpl. tauto. }
  destruct (decide (tool = "execute_command")) as [->|N4].
  { split; [exists 60%Z; split; [reflexivity|lia]|].
    intros H. destruct H. simpl. tauto. }
  destruct (decide (tool = "write_to_file")) as [->|N5].
  { split; [exists 30%Z; split; [reflexivity|lia]|].
    intros H. destruct H. simpl. tauto. }
  assert (generate_security_policy tool = default_policy) as Hd.
  { unfold generate_security_policy, policies. simpl list_to_map.
    rewrite !lookup_insert_ne by congruence. rewrite lookup_empty.
    reflexivity. }
  rewrite Hd. split; [exists 30%Z; split; [reflexivity|lia]|].
  intros _. reflexivity.
Qed.

(** X7. Each validator reads two entries of the policy it is given and no
    other: setting any other entry, to any value, leaves its result as it
    is. The entries [allow_sudo], [require_shell], [require_safe_paths],
    [allowed_directories], [max_redirects] and [require_https], among
    others, are never consulted. *)
Theorem unread_policy_entries_ignored (k : string) (v : pval) :
  (k <> "blocked_patterns" -> k <> "allowed_commands" ->
   forall ps pol result,
     _validate_execute_command ps (<[k:=v]> pol) result
     = _validate_execute_command ps pol result)
  /\ (k <> "blocked_paths" -> k <> "max_file_size" ->
      forall ps pol result,
        _validate_write_file ps (<[k:=v]> pol) result
        = _validate_write_file ps pol result)
  /\ (k <> "blocked_paths" -> k <> "allowed_extensions" ->
      forall h ps pol result,
        _validate_read_file h ps (<[k:=v]> pol) result
        = _validate_read_file h ps pol result)
  /\ (k <> "allowed_schemes" -> k <> "blocked_domains" ->
      forall h ps pol result,
        _validate_browser_navigate h ps (<[k:=v]> pol) result
        = _validate_browser_navigate h ps pol result).
Proof.
  split; [|split; [|split]]; intros H1 H2; intros.
  - unfold _validate_execute_command.
    rewrite !get_list_insert_ne, has_key_insert_ne by assumption.
    reflexivity.
  - unfold _validate_write_file.
    rewrite get_list_insert_ne, get_int_insert_ne by assumption.
    reflexivity.
  - unfold _validate_read_file.
    rewrite !get_list_insert_ne, has_key_insert_ne by assumption.
    reflexivity.
  - unfold _validate_browser_navigate, browser_navigate_try.
    rewrite !get_list_insert_ne by assumption. reflexivity.
Qed.

Lemma unread_policy_entries_ignored_witness :
  _validate_execute_command {[ "command" := VStr "sudo ls" ]}
    (<["allow_sudo" := PBool true]> execute_command_policy) initial_decision
  = _validate_execute_command {[ "command" := VStr "sudo ls" ]}
      execute_command_policy initial_decision.
Proof.
  apply (proj1 (unread_policy_entries_ignored "allow_sudo" (PBool true)));
    discriminate.
Defined.

(** X8. In [_validate_execute_command] the list of allowed commands never
    denies. When no blocked pattern is found in a text command, a command
    without a word (empty or blank) raises [IndexError]; otherwise the
    result is returned with its [allowed] and [reason] as they were, and
    with one more warning exactly when the lowercased first word is not an
    allowed command. *)
Theorem allow_list_only_warns (ps : params) (pol : policy)
    (result : decision) (s : string) (blocked cmds : list string) :
  get ps "command" = VStr s ->
  pol !! "blocked_patterns" = Some (PList blocked) ->
  pol !! "allowed_commands" = Some (PList cmds) ->
  first_blocked true blocked (VStr s) = Returns None ->
  (split_ws s = [] ->
   _validate_execute_command ps pol result = Raises IndexError)
  /\ (forall w ws,
        split_ws s = w :: ws ->
        exists d,
          _validate_execute_command ps pol result = Returns d
          /\ allowed d = allowed result /\ reason d = reason result
          /\ (In (lower w) cmds -> d = result)
          /\ (~ In (lower w) cmds ->
              warnings d
              = warnings result
                ++ ["Command " +:+ lower w +:+ " not in allowed list"])).
Proof.
  intros Hs Hb Hc Hn.
  assert (_validate_execute_command ps pol result
          = match split_ws s with
            | [] => Raises IndexError
            | w :: _ =>
                if mem (lower w) cmds then Returns result
                else Returns (warn result
                       ("Command " +:+ lower w +:+ " not in allowed list"))
            end) as ->.
  { unfold _validate_execute_command, get_list, has_key.
    rewrite Hs, Hb, bind_returns, Hn, bind_returns, Hc.
    rewrite bool_decide_eq_true_2 by eauto.
    simpl as_text. rewrite bind_returns.
    destruct (split_ws s); [reflexivity|]. rewrite bind_returns.
    reflexivity. }
  split.
  - intros ->. reflexivity.
  - intros w ws ->. unfold mem.
    destruct (bool_decide (lower w ∈ cmds)) eqn:Hm.
    + apply bool_decide_eq_true, list_elem_of_In in Hm.
      exists result. repeat split; try reflexivity.
      intros Hx. destruct (Hx Hm).
    + apply bool_decide_eq_false in Hm.
      eexists. split; [reflexivity|].
      cbn [allowed reason warnings warn].
      split; [reflexivity|]. split; [reflexivity|].
      split; [|reflexivity].
      intros Hx. destruct Hm. apply list_elem_of_In. exact Hx.
Qed.

Lemma allow_list_only_warns_witness :
  _validate_execute_command {[ "command" := VStr "  " ]}
    (list_to_map [("blocked_patterns", PList ["rm\s+-rf"]);
                  ("allowed_commands", PList ["ls"; "echo"])])
    initial_decision
  = Raises IndexError.
Proof.
  apply (allow_list_only_warns {[ "command" := VStr "  " ]}
           (list_to_map [("blocked_patterns", PList ["rm\s+-rf"]);
                         ("allowed_commands", PList ["ls"; "echo"])])
           initial_decision "  " ["rm\s+-rf"] ["ls"; "echo"]).
  - vm_compute. reflexivity.
  - vm_compute. reflexivity.
  - vm_compute. reflexivity.
  - vm_compute. reflexivity.
  - vm_compute. reflexivity.
Defined.

End PolicyEngineMore.

(** * Further properties of the risk classifier *)

Module RiskMore.
Import Py PolicyEngine Risk.

Lemma mem_In (x : string) (l : list string) : mem x l = true <-> In x l.
Proof. unfold mem. rewrite bool_decide_eq_true. apply list_elem_of_In. Qed.

Lemma mem_not_In (x : string) (l : list string) :
  mem x l = false <-> ~ In x l.
Proof. unfold mem. rewrite bool_decide_eq_false, list_elem_of_In. tauto. Qed.

Lemma value_in_spec (v : value) (l : list string) :
  value_in v l = true <-> exists s, v = VStr s /\ In s l.
Proof.
  destruct v; simpl; try (split; [discriminate|intros (s & H & _); discriminate H]).
  rewrite mem_In. split; [eauto|]. intros (s' & [= <-] & H). exact H.
Qed.

(** X9. The risk of a tool depends on its name and on the security level
    only, never on its policy. It is [high] exactly for [execute_command],
    [write_to_file] and [browser_navigate] at the levels [high] and
    [maximum], [low] exactly for the names outside the two lists, and one
    of [high], [medium], [low] in every case. *)
Theorem tool_risk_levels (tool_name : string) (pol pol' : policy)
    (security_level : value) :
  (_assess_tool_risk tool_name pol security_level = "high"
   <-> In tool_name ["execute_command"; "write_to_file"; "browser_navigate"]
       /\ (security_level = VStr "high" \/ security_level = VStr "maximum"))
  /\ (_assess_tool_risk tool_name pol security_level = "low"
      <-> ~ In tool_name ["execute_command"; "write_to_file";
                          "browser_navigate"; "read_file"; "search_files";
                          "apply_diff"])
  /\ In (_assess_tool_risk tool_name pol security_level)
       ["high"; "medium"; "low"]
  /\ _assess_tool_risk tool_name pol security_level
     = _assess_tool_risk tool_name pol' security_level.
Proof.
  unfold _assess_tool_risk.
  assert (value_in security_level ["high"; "maximum"] = true
          <-> security_level = VStr "high"
              \/ security_level = VStr "maximum") as Hlevel.
  { rewrite value_in_spec. split.
    - intros (s & -> & [<-|[<-|[]]]); auto.
    - intros [-> | ->]; eexists; (split; [reflexivity|simpl; tauto]). }
  destruct (mem tool_name ["execute_command"; "write_to_file";
                           "browser_navigate"]) eqn:Hh;
    [apply mem_In in Hh|apply mem_not_In in Hh];
    destruct (value_in security_level ["high"; "maximum"]) eqn:Hl;
    (destruct (mem tool_name ["read_file"; "search_files"; "apply_diff"])
       eqn:Hm; [apply mem_In in Hm|apply mem_not_In in Hm]);
    first [ assert (security_level = VStr "high"
                    \/ security_level = VStr "maximum") as Hlv
              by (apply Hlevel; reflexivity)
          | assert (~ (security_level = VStr "high"
                       \/ security_level = VStr "maximum")) as Hlv
              by (rewrite <- Hlevel; discriminate) ];
    clear Hlevel Hl; simpl in Hh, Hm; simpl In;
    (split; [|split; [|split]]);
    first [ reflexivity
          | split; [discriminate|tauto]
          | split; [tauto|reflexivity]
          | split; [tauto|tauto]
          | tauto ].
Qed.

(** X10. The compatibility check reports nothing exactly when the tools do
    not hold both [execute_command] and [browser_navigate] and are at most
    eight, duplicates counted; the issue about command execution combined
    with browser automation is present exactly when both names are; there
    are never more than two issues. *)
Theorem compatibility_issues_characterised (tools : list string) :
  (_check_tool_compatibility tools = []
   <-> ~ (In "execute_command" tools /\ In "browser_navigate" tools)
       /\ (length tools <= 8)%nat)
  /\ (In "Combining command execution with browser automation may have security implications"
        (_check_tool_compatibility tools)
      <-> In "execute_command" tools /\ In "browser_navigate" tools)
  /\ (length (_check_tool_compatibility tools) <= 2)%nat.
Proof.
  unfold _check_tool_compatibility.
  (destruct (mem "execute_command" tools) eqn:He;
     [apply mem_In in He|apply mem_not_In in He]);
    (destruct (mem "browser_navigate" tools) eqn:Hb;
       [apply mem_In in Hb|apply mem_not_In in Hb]);
    (destruct (8 <? Z.of_nat (length tools))%Z eqn:Hl;
       [apply Z.ltb_lt in Hl|apply Z.ltb_ge in Hl]);
    cbn [andb app];
    (split; [|split; [|cbn [length]; lia]]);
    first [ split; [discriminate|intros [H1 H2]; exfalso; (tauto || lia)]
          | split; [intros _; split; [tauto|lia]|reflexivity]
          | split; [intros _; tauto|intros _; left; reflexivity]
          | split;
              [intros H;
               solve [ destruct H
                     | destruct H as [H|[]]; simpl in H; discriminate H ]
              |tauto] ].
Qed.

(** What the loop over the tools leaves, when it returns. *)
Lemma validate_each_returns tools gen lvl :
  forall vals warns vals' warns',
    validate_each tools gen lvl (vals, warns) = Returns (vals', warns') ->
    (forall t,
       vals' !! t
       = if bool_decide (t ∈ tools) && bool_decide (t ∈ implementations gen)
         then (fun pol => (pol, _assess_tool_risk t pol lvl))
                <$> security_policies gen !! t
         else vals !! t)
    /\ (forall t, In t tools -> t ∈ implementations gen ->
                  is_Some (security_policies gen !! t))
    /\ warns'
       = warns
         ++ map (fun t => "Tool '" +:+ t
                          +:+ "' may pose security risks at high security level")
              (filter (fun t => value_is lvl "high" = true
                                /\ t ∈ implementations gen
                                /\ t ∈ ["execute_command";
                                        "browser_navigate"])
                 tools).
Proof.
  induction tools as [|tool rest IH]; intros vals warns vals' warns' H.
  - simpl in H. injection H as <- <-. split; [|split].
    + intros t. rewrite bool_decide_eq_false_2 by apply not_elem_of_nil.
      reflexivity.
    + intros t [].
    + simpl. rewrite app_nil_r. reflexivity.
  - cbn [validate_each] in H.
    destruct (bool_decide (tool ∈ implementations gen)) eqn:Hi.
    + apply bool_decide_eq_true in Hi.
      destruct (security_policies gen !! tool) as [pol|] eqn:Hp;
        [|discriminate H].
      cbn [fst snd] in H. apply IH in H as (Hv & Hs & Hw).
      split; [|split].
      * intros t. rewrite Hv.
        destruct (bool_decide (t ∈ implementations gen)) eqn:Ht;
          rewrite ?andb_true_r, ?andb_false_r.
        -- destruct (decide (t = tool)) as [->|Hne].
           ++ rewrite (bool_decide_eq_true_2 (tool ∈ tool :: rest))
                by apply list_elem_of_here.
              destruct (bool_decide (tool ∈ rest)); [reflexivity|].
              rewrite lookup_insert_eq, Hp. reflexivity.
           ++ rewrite lookup_insert_ne by congruence.
              destruct (bool_decide (t ∈ rest)) eqn:Hr.
              ** apply bool_decide_eq_true in Hr.
                 rewrite bool_decide_eq_true_2
                   by (apply list_elem_of_further; exact Hr).
                 reflexivity.
              ** apply bool_decide_eq_false in Hr.
                 rewrite bool_decide_eq_false_2; [reflexivity|].
                 intros Hx. apply elem_of_cons in Hx as [Hx|Hx];
                   [congruence|exact (Hr Hx)].
        -- apply bool_decide_eq_false in Ht.
           rewrite lookup_insert_ne; [reflexivity|].
           intros <-. exact (Ht Hi).
      * intros t [<-|Hin] Ht; [rewrite Hp; eauto|]. apply Hs; assumption.
      * rewrite Hw. rewrite filter_cons.
        destruct (value_is lvl "high") eqn:Hl; cbn [andb].
        -- unfold mem.
           destruct (bool_decide (tool ∈ ["execute_command";
                                          "browser_navigate"])) eqn:Hm.
           ++ apply bool_decide_eq_true in Hm.
              rewrite decide_True by auto.
              cbn [map]. rewrite <- app_assoc. reflexivity.
           ++ apply bool_decide_eq_false in Hm.
              rewrite decide_False by tauto. reflexivity.
        -- rewrite decide_False by (intros [? _]; discriminate).
           reflexivity.
    + apply bool_decide_eq_false in Hi.
      apply IH in H as (Hv & Hs & Hw). split; [|split].
      * intros t. rewrite Hv.
        destruct (bool_decide (t ∈ implementations gen)) eqn:Ht;
          rewrite ?andb_true_r, ?andb_false_r; [|reflexivity].
        apply bool_decide_eq_true in Ht.
        assert (t <> tool) as Hne by (intros ->; exact (Hi Ht)).
        destruct (bool_decide (t ∈ rest)) eqn:Hr.
        -- apply bool_decide_eq_true in Hr.
           rewrite bool_decide_eq_true_2
             by (apply list_elem_of_further; exact Hr).
           reflexivity.
        -- apply bool_decide_eq_false in Hr.
           rewrite bool_decide_eq_false_2; [reflexivity|].
           intros Hx. apply elem_of_cons in Hx as [Hx|Hx];
             [congruence|exact (Hr Hx)].
      * intros t [<-|Hin] Ht; [destruct (Hi Ht)|]. apply Hs; assumption.
      * rewrite Hw, filter_cons.
        rewrite decide_False by tauto. reflexivity.
Qed.

(** The loop returns when every implemented tool has a policy, and raises
    on the first implemented tool that has none. *)
Lemma validate_each_outcome tools gen lvl :
  forall acc,
    (exists r, validate_each tools gen lvl acc = Returns r)
    \/ (exists t, In t tools /\ t ∈ implementations gen
                  /\ security_policies gen !! t = None
                  /\ validate_each tools gen lvl acc = Raises (KeyError t)).
Proof.
  induction tools as [|tool rest IH]; intros acc.
  - left. simpl. eauto.
  - cbn [validate_each].
    destruct (bool_decide (tool ∈ implementations gen)) eqn:Hi.
    + apply bool_decide_eq_true in Hi.
      destruct (security_policies gen !! tool) as [pol|] eqn:Hp.
      * destruct (IH (<[tool:=(pol, _assess_tool_risk tool pol lvl)]>
                        (fst acc),
                      if value_is lvl "high"
                         && mem tool ["execute_command"; "browser_navigate"]
                      then snd acc ++
                             ["Tool '" +:+ tool
                              +:+ "' may pose security risks at high security level"]
                      else snd acc))
          as [[r Hr]|(t & Hin & Ht & Hn & Hr)].
        -- left. eauto.
        -- right. exists t. repeat split; try assumption. right. exact Hin.
      * right. exists tool. repeat split; try assumption. left. reflexivity.
    + destruct (IH acc) as [[r Hr]|(t & Hin & Ht & Hn & Hr)].
      * left. eauto.
      * right. exists t. repeat split; try assumption. right. exact Hin.
Qed.

(** X11. When every tool of the list that has an implementation has a
    policy, the security validation returns: its level is the configured
    one, [medium] when none is configured; a tool has a validation entry
    exactly when it is in the list and has an implementation, and the entry
    holds the tool's policy with the risk assessed for it at that level. *)
Theorem tool_security_validations (tools : list string)
    (gen : generated_tools) (config : gmap string value) :
  (forall t, In t tools -> t ∈ implementations gen ->
             is_Some (security_policies gen !! t)) ->
  exists r,
    _validate_tool_security tools gen config = Returns r
    /\ level r = default (VStr "medium") (config !! "security_level")
    /\ (forall t, is_Some (validations r !! t)
                  <-> In t tools /\ t ∈ implementations gen)
    /\ (forall t pol risk,
          validations r !! t = Some (pol, risk) ->
          security_policies gen !! t = Some pol
          /\ risk = _assess_tool_risk t pol (level r))
    /\ compatibility_issues r = _check_tool_compatibility tools.
Proof.
  intros Hpol. unfold _validate_tool_security.
  set (lvl := default (VStr "medium") (config !! "security_level")).
  destruct (validate_each_outcome tools gen lvl (∅, []))
    as [[[vals warns] Hr]|(t & Hin & Ht & Hn & _)].
  2:{ destruct (Hpol t Hin Ht) as [pol Hp]. congruence. }
  rewrite Hr. rewrite PolicyEngineSpec.bind_returns.
  apply validate_each_returns in Hr as (Hv & _ & _).
  eexists. split; [reflexivity|]. cbn [level validations compatibility_issues fst].
  split; [reflexivity|]. split; [|split; [|reflexivity]].
  - intros t. rewrite Hv.
    destruct (bool_decide (t ∈ tools)) eqn:H1;
      destruct (bool_decide (t ∈ implementations gen)) eqn:H2; cbn [andb];
      try apply bool_decide_eq_true in H1;
      try apply bool_decide_eq_false in H1;
      try apply bool_decide_eq_true in H2;
      try apply bool_decide_eq_false in H2;
      rewrite ?lookup_empty, ?list_elem_of_In in *.
    + split; [tauto|]. intros _.
      destruct (Hpol t H1 H2) as [pol ->]. simpl. eauto.
    + split; [intros [? H]; discriminate H|tauto].
    + split; [intros [? H]; discriminate H|tauto].
    + split; [intros [? H]; discriminate H|tauto].
  - intros t pol risk. rewrite Hv.
    destruct (bool_decide (t ∈ tools) && bool_decide (t ∈ implementations gen)).
    + destruct (security_policies gen !! t) as [pol0|]; simpl;
        [|discriminate]. intros [= <- <-]. auto.
    + rewrite lookup_empty. discriminate.
Qed.

Lemma tool_security_validations_witness :
  exists r,
    _validate_tool_security ["read_file"; "custom_tool"]
      {| implementations := {[ "read_file" ]};
         security_policies := {[ "read_file" := read_file_policy ]} |} ∅
    = Returns r
    /\ level r = VStr "medium".
Proof.
  destruct (tool_security_validations ["read_file"; "custom_tool"]
              {| implementations := {[ "read_file" ]};
                 security_policies :=
                   {[ "read_file" := read_file_policy ]} |} ∅)
    as (r & Hr & Hl & _).
  - intros t Hin Ht. cbn [implementations security_policies] in *.
    apply elem_of_singleton in Ht. subst t.
    rewrite lookup_singleton_eq. eauto.
  - exists r. split; [exact Hr|]. rewrite Hl. reflexivity.
Defined.

(** X12. When a tool of the list has an implementation but no policy, the
    security validation raises [KeyError], for the first such tool. *)
Theorem missing_policy_raises (tools : list string) (gen : generated_tools)
    (config : gmap string value) (t : string) :
  In t tools -> t ∈ implementations gen ->
  security_policies gen !! t = None ->
  exists t',
    In t' tools /\ t' ∈ implementations gen
    /\ security_policies gen !! t' = None
    /\ _validate_tool_security tools gen config = Raises (KeyError t').
Proof.
  intros Hin Ht Hn. unfold _validate_tool_security.
  set (lvl := default (VStr "medium") (config !! "security_level")).
  destruct (validate_each_outcome tools gen lvl (∅, []))
    as [[[vals warns] Hr]|(t' & Hin' & Ht' & Hn' & Hr)].
  - apply validate_each_returns in Hr as (_ & Hs & _).
    destruct (Hs t Hin Ht) as [pol Hp]. congruence.
  - exists t'. rewrite Hr. auto.
Qed.

Lemma missing_policy_raises_witness :
  exists t',
    In t' ["list_files"; "read_file"]
    /\ _validate_tool_security ["list_files"; "read_file"]
         {| implementations := {[ "read_file" ]}; security_policies := ∅ |}
         {[ "security_level" := VStr "low" ]}
       = Raises (KeyError t').
Proof.
  destruct (missing_policy_raises ["list_files"; "read_file"]
              {| implementations := {[ "read_file" ]};
                 security_policies := ∅ |}
              {[ "security_level" := VStr "low" ]} "read_file")
    as (t' & Hin & _ & _ & Hr).
  - simpl. tauto.
  - vm_compute. reflexivity.
  - reflexivity.
  - exists t'. split; assumption.
Defined.

(** X13. The security validation warns about tools at the level [high]
    only: there it holds one warning for each occurrence in the list of an
    implemented [execute_command] or [browser_navigate], in order. At every
    other level, [maximum] included, it holds no warning and does not
    recommend sandboxed environments. *)
Theorem tool_warnings_only_at_high (tools : list string)
    (gen : generated_tools) (config : gmap string value)
    (r : validation_results) :
  _validate_tool_security tools gen config = Returns r ->
  (level r <> VStr "high" ->
   warnings r = []
   /\ ~ In "Consider using sandboxed environments for tool execution"
          (recommendations r))
  /\ (level r = VStr "high" ->
      warnings r
      = map (fun t => "Tool '" +:+ t
                      +:+ "' may pose security risks at high security level")
          (filter (fun t => t ∈ implementations gen
                            /\ t ∈ ["execute_command"; "browser_navigate"])
             tools)).
Proof.
  unfold _validate_tool_security.
  set (lvl := default (VStr "medium") (config !! "security_level")).
  destruct (validate_each tools gen lvl (∅, [])) as [[vals warns]|e] eqn:Hr;
    [|discriminate].
  rewrite PolicyEngineSpec.bind_returns. intros [= <-].
  cbn [level warnings recommendations snd].
  apply validate_each_returns in Hr as (_ & _ & ->). cbn [app].
  assert (value_is lvl "high" = true <-> lvl = VStr "high") as Hhigh.
  { destruct lvl; simpl; try (split; discriminate).
    rewrite bool_decide_eq_true. split; [intros ->; reflexivity|].
    intros [= ->]. reflexivity. }
  split.
  - intros Hne.
    assert (value_is lvl "high" = false) as Hf.
    { destruct (value_is lvl "high") eqn:E; [|reflexivity].
      destruct Hne. apply Hhigh. reflexivity. }
    split.
    + induction tools as [|t tools IH]; [reflexivity|].
      rewrite filter_cons, decide_False; [exact IH|].
      intros [H _]. congruence.
    + unfold _generate_security_recommendations. rewrite Hf.
      destruct (mem "execute_command" tools),
        (mem "browser_navigate" tools), (mem "write_to_file" tools);
        cbn [app In];
        intros H; repeat (destruct H as [H|H]; [discriminate H|]); exact H.
  - intros Hl. f_equal. apply Hhigh in Hl.
    induction tools as [|t tools IH]; [reflexivity|].
    rewrite !filter_cons, IH.
    destruct (decide (t ∈ implementations gen
                      /\ t ∈ ["execute_command"; "browser_navigate"]))
      as [Hd|Hd].
    + rewrite decide_True by tauto. reflexivity.
    + rewrite decide_False by tauto. reflexivity.
Qed.

Lemma tool_warnings_only_at_high_witness :
  let r :=
    {| level := VStr "maximum";
       validations :=
         {[ "execute_command" :=
              (generate_security_policy "execute_command", "high") ]};
       warnings := [];
       recommendations :=
         ["Review command execution policies and restrict allowed commands"];
       compatibility_issues := [] |} in
  (level r <> VStr "high" ->
   warnings r = []
   /\ ~ In "Consider using sandboxed environments for tool execution"
          (recommendations r))
  /\ (level r = VStr "high" ->
      warnings r
      = map (fun t => "Tool '" +:+ t
                      +:+ "' may pose security risks at high security level")
          (filter (fun t => t ∈ implementations
                                  (generated_for ["execute_command"])
                            /\ t ∈ ["execute_command"; "browser_navigate"])
             ["execute_command"])).
Proof.
  apply (tool_warnings_only_at_high ["execute_command"]
           (generated_for ["execute_command"])
           {[ "security_level" := VStr "maximum" ]}).
  vm_compute. reflexivity.
Defined.

(** The policies that [generate_tools] leaves. *)
Lemma generated_policy (tool_names : list string) (t : string) :
  security_policies (generated_for tool_names) !! t
  = if bool_decide (t ∈ tool_names)
    then Some (generate_security_policy t) else None.
Proof.
  unfold generated_for. cbn [security_policies].
  induction tool_names as [|t0 rest IH]; [apply lookup_empty|].
  cbn [map list_to_map foldr].
  destruct (decide (t0 = t)) as [->|Hne].
  - rewrite lookup_insert_eq, bool_decide_eq_true_2 by (left; reflexivity).
    reflexivity.
  - rewrite lookup_insert_ne by exact Hne. etransitivity; [exact IH|].
    destruct (bool_decide (t ∈ rest)) eqn:Hr.
    + apply bool_decide_eq_true in Hr.
      rewrite bool_decide_eq_true_2 by (right; exact Hr). reflexivity.
    + apply bool_decide_eq_false in Hr.
      rewrite bool_decide_eq_false_2; [reflexivity|].
      intros H. apply elem_of_cons in H as [H|H];
        [exact (Hne (eq_sym H))|exact (Hr H)].
Qed.

(** X26. Generation followed by validation, as [generate_agent] chains them
    on one list of tools: when every tool was generated without an
    exception, the security validation returns, never raising [KeyError];
    it holds an entry for exactly the tools of the list, and each entry
    holds the policy that [generate_security_policy] gives for the name,
    with the risk assessed at the level of the result. *)
Theorem generated_tools_pass_validation (tool_names : list string)
    (config : gmap string value) :
  exists r,
    _validate_tool_security tool_names (generated_for tool_names) config
    = Returns r
    /\ (forall t, is_Some (validations r !! t) <-> In t tool_names)
    /\ (forall t pol risk,
          validations r !! t = Some (pol, risk) ->
          pol = generate_security_policy t
          /\ risk = _assess_tool_risk t (generate_security_policy t)
                      (level r)).
Proof.
  unfold _validate_tool_security.
  set (lvl := default (VStr "medium") (config !! "security_level")).
  destruct (validate_each_outcome tool_names (generated_for tool_names) lvl
              (∅, []))
    as [[[vals warns] Hr]|(t & Hin & _ & Hn & _)].
  2:{ rewrite generated_policy, bool_decide_eq_true_2 in Hn
        by (apply list_elem_of_In; exact Hin).
      discriminate Hn. }
  rewrite Hr, PolicyEngineSpec.bind_returns.
  apply validate_each_returns in Hr as (Hv & _ & _).
  eexists. split; [reflexivity|]. cbn [level validations fst].
  assert (forall t,
            vals !! t
            = if bool_decide (t ∈ tool_names)
              then Some (generate_security_policy t,
                         _assess_tool_risk t (generate_security_policy t) lvl)
              else None) as Hvals.
  { intros t. rewrite Hv, generated_policy.
    destruct (bool_decide (t ∈ tool_names)) eqn:Hin.
    - apply bool_decide_eq_true in Hin.
      rewrite (bool_decide_eq_true_2
                 (t ∈ implementations (generated_for tool_names)))
        by (apply elem_of_list_to_set; exact Hin).
      reflexivity.
    - cbn [andb]. apply lookup_empty. }
  split.
  - intros t. rewrite Hvals, <- list_elem_of_In.
    destruct (bool_decide (t ∈ tool_names)) eqn:Hin.
    + apply bool_decide_eq_true in Hin. split; [tauto|eauto].
    + apply bool_decide_eq_false in Hin.
      split; [intros [? H]; discriminate H|tauto].
  - intros t pol risk. rewrite Hvals.
    destruct (bool_decide (t ∈ tool_names)); [|discriminate].
    intros [= <- <-]. split; reflexivity.
Qed.



End RiskMore.

(** * Properties of the requirement assessors and of the type selectors *)

Module RequirementsSpec.
Import Py Requirements.


(** An unsafe, critical system is assessed [low]. *)
Example unsafe_critical_is_low :
  _assess_security_needs "A CRITICAL system handling unsafe medical data"
  = "low".
Proof. vm_compute. reflexivity. Qed.

(** X15. A description in which the word [simple] occurs, in any case and
    also inside another word, is assessed [simple], [buffer] and [react],
    whatever else it says: [simple] is an indicator of the first row of
    each of the three tables. *)
Theorem simple_fixes_three_assessments (description : string) :
  contains "simple" (lower description) = true ->
  _assess_complexity description = "simple"
  /\ _assess_memory_needs description = "buffer"
  /\ _assess_reasoning_needs description = "react".
Proof.
  intros H.
  unfold _assess_complexity, _assess_memory_needs, _assess_reasoning_needs,
    first_indicated, complexity_indicators, memory_indicators,
    reasoning_indicators.
  cbn [List.find snd fst any_in existsb]. rewrite H.
  cbn [orb]. rewrite ?orb_true_r. cbn [orb]. repeat split.
Qed.

Lemma simple_fixes_three_assessments_witness :
  _assess_complexity "Not a Simple task: complex multi-step research"
  = "simple"
  /\ _assess_memory_needs "Not a Simple task: complex multi-step research"
     = "buffer"
  /\ _assess_reasoning_needs "Not a Simple task: complex multi-step research"
     = "react".
Proof.
  apply (simple_fixes_three_assessments
           "Not a Simple task: complex multi-step research").
  vm_compute. reflexivity.
Defined.

Lemma item_analyze ta description :
  item (_analyze_requirements ta description) "complexity"
  = Returns (VStr (_assess_complexity description))
  /\ item (_analyze_requirements ta description) "reasoning_requirements"
     = Returns (VStr (_assess_reasoning_needs description))
  /\ item (_analyze_requirements ta description) "memory_requirements"
     = Returns (VStr (_assess_memory_needs description)).
Proof.
  unfold item, _analyze_requirements. repeat split.
Qed.

(** X16. The reasoning type. A requested type of [REASONING_TYPES] gives,
    on the analysis of the same description, a result that is [react],
    [plan-and-execute] or [babyagi] (a key of [TEMPLATE_CONFIGS]) and never
    [auto], and a request other than [auto] is returned as it is. A
    request outside [REASONING_TYPES] raises [ValueError]. The automatic
    choice on an analysis that lacks the entry [complexity] raises
    [KeyError]. *)
Theorem select_reasoning_type_outcomes (requested_type description : string)
    (tool_analysis : value) (analysis : gmap string value) :
  (In requested_type REASONING_TYPES ->
   exists r,
     _select_reasoning_type requested_type description
       (_analyze_requirements tool_analysis description) = Returns r
     /\ In r ["react"; "plan-and-execute"; "babyagi"]
     /\ (requested_type <> "auto" -> r = requested_type))
  /\ (~ In requested_type REASONING_TYPES ->
      _select_reasoning_type requested_type description analysis
      = Raises ValueError)
  /\ (analysis !! "complexity" = None ->
      _select_reasoning_type "auto" description analysis
      = Raises (KeyError "complexity")).
Proof.
  unfold _select_reasoning_type. split; [|split].
  - intros Hin. destruct (bool_decide (requested_type = "auto")) eqn:Ha.
    + apply bool_decide_eq_true in Ha. cbn [negb].
      destruct (item_analyze tool_analysis description) as (-> & -> & _).
      cbn [bind].
      destruct (_ || _); [eexists; split; [reflexivity|]; split;
                          [simpl; tauto|congruence]|].
      destruct (_ || _); eexists; (split; [reflexivity|]); split;
        try (simpl; tauto); congruence.
    + apply bool_decide_eq_false in Ha. cbn [negb].
      assert (mem requested_type REASONING_TYPES = true) as ->
        by (apply bool_decide_eq_true, list_elem_of_In; exact Hin).
      cbn [negb]. exists requested_type. split; [reflexivity|].
      split; [|reflexivity].
      unfold REASONING_TYPES in Hin. simpl in Hin. simpl.
      destruct Hin as [E|Hin]; [congruence|tauto].
  - intros Hn.
    assert (requested_type <> "auto") as Ha
      by (intros ->; apply Hn; simpl; tauto).
    rewrite bool_decide_eq_false_2 by exact Ha. cbn [negb].
    assert (mem requested_type REASONING_TYPES = false) as ->.
    { apply bool_decide_eq_false. rewrite list_elem_of_In. exact Hn. }
    reflexivity.
  - intros Hc. rewrite bool_decide_eq_true_2 by reflexivity. cbn [negb].
    unfold item. rewrite Hc. reflexivity.
Qed.

Lemma select_reasoning_type_outcomes_witness :
  exists r,
    _select_reasoning_type "auto" "Explore and research the market"
      (_analyze_requirements VNone "Explore and research the market")
    = Returns r
    /\ In r ["react"; "plan-and-execute"; "babyagi"].
Proof.
  destruct (proj1 (select_reasoning_type_outcomes "auto"
                     "Explore and research the market" VNone ∅))
    as (r & Hr & Hin & _).
  - simpl. tauto.
  - exists r. split; assumption.
Defined.

(** X17. The memory type. A requested type of [MEMORY_TYPES] gives, on the
    analysis of the same description, a result that is [buffer], [summary]
    or [vector] (a key of [MEMORY_CONFIGS]) and never [auto], and a request
    other than [auto] is returned as it is. A request outside
    [MEMORY_TYPES] raises [ValueError]. In the automatic choice the word
    [semantic] in the description gives [vector] whatever the analysis
    says. *)
Theorem select_memory_type_outcomes (requested_type description : string)
    (tool_analysis : value) (analysis : gmap string value) :
  (In requested_type MEMORY_TYPES ->
   exists r,
     _select_memory_type requested_type description
       (_analyze_requirements tool_analysis description) = Returns r
     /\ In r ["buffer"; "summary"; "vector"]
     /\ (requested_type <> "auto" -> r = requested_type))
  /\ (~ In requested_type MEMORY_TYPES ->
      _select_memory_type requested_type description analysis
      = Raises ValueError)
  /\ (is_Some (analysis !! "memory_requirements") ->
      contains "semantic" (lower description) = true ->
      _select_memory_type "auto" description analysis = Returns "vector").
Proof.
  unfold _select_memory_type. split; [|split].
  - intros Hin. destruct (bool_decide (requested_type = "auto")) eqn:Ha.
    + apply bool_decide_eq_true in Ha. cbn [negb].
      destruct (item_analyze tool_analysis description) as (_ & _ & ->).
      cbn [bind].
      destruct (_ || _); [eexists; split; [reflexivity|]; split;
                          [simpl; tauto|congruence]|].
      destruct (_ || _); eexists; (split; [reflexivity|]); split;
        try (simpl; tauto); congruence.
    + apply bool_decide_eq_false in Ha. cbn [negb].
      assert (mem requested_type MEMORY_TYPES = true) as ->
        by (apply bool_decide_eq_true, list_elem_of_In; exact Hin).
      cbn [negb]. exists requested_type. split; [reflexivity|].
      split; [|reflexivity].
      unfold MEMORY_TYPES in Hin. simpl in Hin. simpl.
      destruct Hin as [E|Hin]; [congruence|tauto].
  - intros Hn.
    assert (requested_type <> "auto") as Ha
      by (intros ->; apply Hn; simpl; tauto).
    rewrite bool_decide_eq_false_2 by exact Ha. cbn [negb].
    assert (mem requested_type MEMORY_TYPES = false) as ->.
    { apply bool_decide_eq_false. rewrite list_elem_of_In. exact Hn. }
    reflexivity.
  - intros [v Hv] Hs. rewrite bool_decide_eq_true_2 by reflexivity.
    cbn [negb]. unfold item. rewrite Hv. cbn [bind].
    rewrite Hs, orb_true_r. reflexivity.
Qed.

Lemma select_memory_type_outcomes_witness :
  _select_memory_type "cache" "Keep a summary" ∅ = Raises ValueError.
Proof.
  apply (proj1 (proj2 (select_memory_type_outcomes "cache" "Keep a summary"
                         VNone ∅))).
  simpl. intros [H|[H|[H|[H|[]]]]]; discriminate H.
Defined.

End RequirementsSpec.

(** * Properties of the keyword extraction and of the category assignment *)

Module ToolAnalyzerSpec.
Import Py ToolAnalyzer.

(** The loop keeps exactly the keywords not seen before, once each. *)
Lemma unique_from_spec (keywords : list string) :
  forall seen : gset string,
    NoDup (unique_from seen keywords)
    /\ (forall kw, In kw (unique_from seen keywords)
                   <-> In kw keywords /\ kw ∉ seen)
    /\ (length (unique_from seen keywords) <= length keywords)%nat.
Proof.
  induction keywords as [|k rest IH]; intros seen; cbn [unique_from].
  - split; [constructor|]. split; [|reflexivity].
    intros kw. simpl. tauto.
  - destruct (bool_decide (k ∈ seen)) eqn:Hk.
    + apply bool_decide_eq_true in Hk.
      destruct (IH seen) as (Hn & Hi & Hl).
      split; [exact Hn|]. split; [|simpl; lia].
      intros kw. rewrite Hi. simpl. split; [tauto|].
      intros [[<-|H] Hs]; [destruct (Hs Hk)|tauto].
    + apply bool_decide_eq_false in Hk.
      destruct (IH ({[k]} ∪ seen)) as (Hn & Hi & Hl).
      split; [|split; [|simpl; lia]].
      * apply NoDup_cons. split; [|exact Hn].
        rewrite list_elem_of_In, Hi. intros [_ H]. apply H.
        apply elem_of_union_l, elem_of_singleton. reflexivity.
      * intros kw. simpl. rewrite Hi, elem_of_union, elem_of_singleton.
        split.
        -- intros [<-|[H1 H2]]; [tauto|]. split; [tauto|]. tauto.
        -- intros [[<-|H1] H2]; [tauto|].
           destruct (decide (kw = k)) as [->|Hne]; [tauto|]. right. tauto.
Qed.

Lemma bigrams_length words : (length (bigrams words) <= length words)%nat.
Proof.
  induction words as [|w1 [|w2 rest] IH]; simpl in *; lia.
Qed.

Lemma trigrams_length words : (length (trigrams words) <= length words)%nat.
Proof.
  induction words as [|w1 [|w2 [|w3 rest]] IH]; simpl in *; lia.
Qed.

(** X18. The extracted keywords hold no duplicate; they are exactly the
    words of the lowercased description, its pairs of adjacent words and
    its triples of adjacent words; and they are at most three times as many
    as the words. *)
Theorem extract_keywords_unique (text : string) :
  NoDup (_extract_keywords text)
  /\ (forall kw,
        In kw (_extract_keywords text)
        <-> In kw (findall_words (lower text))
            \/ In kw (bigrams (findall_words (lower text)))
            \/ In kw (trigrams (findall_words (lower text))))
  /\ (length (_extract_keywords text)
      <= 3 * length (findall_words (lower text)))%nat.
Proof.
  unfold _extract_keywords.
  destruct (unique_from_spec
              (findall_words (lower text)
               ++ bigrams (findall_words (lower text))
               ++ trigrams (findall_words (lower text))) ∅)
    as (Hn & Hi & Hl).
  split; [exact Hn|]. split.
  - intros kw. rewrite Hi, !in_app_iff. split; [tauto|].
    intros H. split; [exact H|]. apply not_elem_of_empty.
  - rewrite !length_app in Hl.
    pose proof (bigrams_length (findall_words (lower text))).
    pose proof (trigrams_length (findall_words (lower text))).
    lia.
Qed.

(** The items of the assignment over a table. *)
Lemma assign_over_spec (table : list category) (selected : list string) :
  forall c ts,
    In (c, ts) (assign_over table selected)
    <-> ts <> []
        /\ exists config,
             In config table /\ category_name config = c
             /\ ts = filter (fun tool => tool ∈ tools config) selected.
Proof.
  induction table as [|config rest IH]; intros c ts; cbn [assign_over].
  - simpl. split; [tauto|]. intros (_ & ? & [] & _).
  - destruct (filter (fun tool => tool ∈ tools config) selected)
      as [|t0 ts0] eqn:Hf.
    + rewrite IH. split.
      * intros (Hne & cfg & Hin & Hc & Ht). split; [exact Hne|].
        exists cfg. split; [right; exact Hin|]. auto.
      * intros (Hne & cfg & [<-|Hin] & Hc & Ht).
        -- rewrite Hf in Ht. destruct (Hne Ht).
        -- split; [exact Hne|]. eauto.
    + simpl. rewrite IH. split.
      * intros [[= <- <-]|(Hne & cfg & Hin & Hc & Ht)].
        -- split; [discriminate|]. exists config.
           split; [left; reflexivity|]. split; [reflexivity|].
           symmetry. exact Hf.
        -- split; [exact Hne|]. exists cfg. split; [right; exact Hin|]. auto.
      * intros (Hne & cfg & [<-|Hin] & Hc & Ht).
        -- left. rewrite Hf in Ht. congruence.
        -- right. split; [exact Hne|]. eauto.
Qed.

(** X19. In the category assignment, a category is listed exactly when one
    of the selected tools belongs to it, with the selected tools that belong
    to it in their order. So a tool is listed under some category exactly
    when it is selected and belongs to a category of the table; a selected
    tool of no category, as [use_mcp_tool] is, is listed nowhere. *)
Theorem assigned_categories (selected_tools : list string) :
  (forall c ts,
     In (c, ts) (_assign_tool_categories selected_tools)
     <-> ts <> []
         /\ exists config,
              In config TOOL_CATEGORIES /\ category_name config = c
              /\ ts = filter (fun tool => tool ∈ tools config)
                        selected_tools)
  /\ (forall t,
        (exists c ts,
           In (c, ts) (_assign_tool_categories selected_tools) /\ In t ts)
        <-> In t selected_tools
            /\ exists config, In config TOOL_CATEGORIES
                              /\ In t (tools config))
  /\ (forall c ts,
        In (c, ts) (_assign_tool_categories selected_tools) ->
        ~ In "use_mcp_tool" ts).
Proof.
  assert (forall t,
            (exists c ts,
               In (c, ts) (_assign_tool_categories selected_tools)
               /\ In t ts)
            <-> In t selected_tools
                /\ exists config, In config TOOL_CATEGORIES
                                  /\ In t (tools config)) as Htool.
  { intros t. unfold _assign_tool_categories. split.
    - intros (c & ts & Hin & Ht).
      apply assign_over_spec in Hin as (_ & cfg & Hc & _ & ->).
      apply list_elem_of_In, list_elem_of_filter in Ht as [H1 H2].
      split; [apply list_elem_of_In; exact H2|].
      exists cfg. split; [exact Hc|]. apply list_elem_of_In. exact H1.
    - intros (Hs & cfg & Hc & Ht).
      assert (t ∈ filter (fun tool => tool ∈ tools cfg) selected_tools)
        as Hf.
      { apply list_elem_of_filter. split; apply list_elem_of_In; assumption. }
      exists (category_name cfg),
        (filter (fun tool => tool ∈ tools cfg) selected_tools).
      split; [|apply list_elem_of_In; exact Hf].
      apply assign_over_spec. split.
      + intros E. rewrite E in Hf. apply not_elem_of_nil in Hf. exact Hf.
      + exists cfg. auto. }
  split; [|split; [exact Htool|]].
  - intros c ts. apply assign_over_spec.
  - intros c ts Hin Hm.
    destruct (proj1 (Htool "use_mcp_tool")) as (_ & cfg & Hc & Ht);
      [eauto|].
    unfold TOOL_CATEGORIES in Hc. simpl in Hc.
    repeat (destruct Hc as [<-|Hc];
            [simpl in Ht;
             repeat (destruct Ht as [Ht|Ht]; [discriminate Ht|]);
             exact Ht|]).
    exact Hc.
Qed.

End ToolAnalyzerSpec.

(** * Further properties of the static source validator *)

Module CodeValidatorMore.
Import Py CodeValidator CodeValidatorSpec.

Lemma flat_map_nil {A B : Type} (f : A -> list B) (l : list A) :
  flat_map f l = [] <-> forall x, In x l -> f x = [].
Proof.
  induction l as [|a l IH]; simpl.
  - split; [intros _ x []|reflexivity].
  - split.
    + intros H. apply app_eq_nil in H as [Ha Hl].
      intros x [<-|Hx]; [exact Ha|]. apply IH; assumption.
    + intros H. rewrite (H a) by (left; reflexivity).
      apply IH. intros x Hx. apply H. right. exact Hx.
Qed.

(** The nodes that add no error. *)
Lemma own_errors_nil (n : node) :
  own_errors n = []
  <-> match n with
      | Call _ (Name id) _ => id ∉ FORBIDDEN_CALLS
      | Import _ names =>
          forall a, In a names -> root_segment (name a) ∈ ALLOWED_IMPORTS
      | ImportFrom _ (Some m) _ =>
          m <> "" -> root_segment m ∈ ALLOWED_IMPORTS
      | _ => True
      end.
Proof.
  destruct n as [id|obj attr|lineno func args|lineno names
                |lineno module names|cs|cs|cs];
    try (split; [intros _; exact I|reflexivity]).
  - rewrite own_errors_Call.
    destruct func; try (split; [intros _; exact I|reflexivity]).
    destruct (bool_decide (id ∈ FORBIDDEN_CALLS)) eqn:Hb.
    + apply bool_decide_eq_true in Hb. split; [discriminate|tauto].
    + apply bool_decide_eq_false in Hb. split; [tauto|reflexivity].
  - rewrite (proj1 (own_Import lineno names)), flat_map_nil.
    split; intros H a Ha; specialize (H a Ha).
    + destruct (bool_decide _) eqn:Hb; [|discriminate H].
      apply bool_decide_eq_true in Hb. exact Hb.
    + rewrite bool_decide_eq_true_2 by exact H. reflexivity.
  - destruct module as [m|]; [|split; [intros _; exact I|reflexivity]].
    destruct (decide (m = "")) as [->|Hm].
    + split; [intros _ H; destruct H; reflexivity|reflexivity].
    + rewrite (proj1 (own_ImportFrom lineno m names Hm)).
      destruct (bool_decide _) eqn:Hb.
      * apply bool_decide_eq_true in Hb. split; [tauto|reflexivity].
      * apply bool_decide_eq_false in Hb. split; [discriminate|tauto].
Qed.

(** X20. On a source that parses, the result is valid exactly when the tree
    holds no call of a bare name of [FORBIDDEN_CALLS], no [import] of an
    alias whose root segment is outside [ALLOWED_IMPORTS], and no [from]
    import of a module path whose root segment is outside it. *)
Theorem valid_iff_clean_tree (ast_parse : string -> parse_result)
    (code : string) (tree : node) :
  ast_parse code = Parsed tree ->
  exists r,
    validate_python_code ast_parse code = Returns r
    /\ (valid r = true
        <-> (forall lineno id args,
               In (Call lineno (Name id) args) (preorder tree) ->
               id ∉ FORBIDDEN_CALLS)
            /\ (forall lineno names a,
                  In (Import lineno names) (preorder tree) -> In a names ->
                  root_segment (name a) ∈ ALLOWED_IMPORTS)
            /\ (forall lineno m names,
                  In (ImportFrom lineno (Some m) names) (preorder tree) ->
                  m <> "" -> root_segment m ∈ ALLOWED_IMPORTS)).
Proof.
  intros Hp. destruct (validate_parsed _ _ _ Hp) as (r & Hr & He & _ & Hv).
  exists r. split; [exact Hr|].
  rewrite Hv, bool_decide_eq_true, length_zero_iff_nil, He, flat_map_nil.
  split.
  - intros H. repeat split.
    + intros lineno id args Hin. exact (proj1 (own_errors_nil _) (H _ Hin)).
    + intros lineno names a Hin.
      exact (proj1 (own_errors_nil _) (H _ Hin) a).
    + intros lineno m names Hin.
      exact (proj1 (own_errors_nil _) (H _ Hin)).
  - intros (H1 & H2 & H3) n Hin. apply own_errors_nil.
    destruct n as [id|obj attr|lineno func args|lineno names
                  |lineno module names|cs|cs|cs]; try exact I.
    + destruct func; try exact I. exact (H1 _ _ _ Hin).
    + intros a Ha. exact (H2 _ _ _ Hin Ha).
    + destruct module as [m|]; [|exact I]. exact (H3 _ _ _ Hin).
Qed.

Lemma valid_iff_clean_tree_witness :
  exists r,
    validate_python_code
      (fun _ =>
         Parsed (Other [Import 1 [Alias "os" None];
                        FunctionDef
                          [Other [Call 3 (Attribute (Name "os") "system")
                                    [Other []]]]]))
      "import os" = Returns r
    /\ valid r = true.
Proof.
  destruct (valid_iff_clean_tree
              (fun _ =>
                 Parsed (Other [Import 1 [Alias "os" None];
                                FunctionDef
                                  [Other [Call 3
                                            (Attribute (Name "os") "system")
                                            [Other []]]]]))
              "import os" _ eq_refl) as (r & Hr & Hiff).
  exists r. split; [exact Hr|].
  vm_compute in Hr. injection Hr as <-. reflexivity.
Defined.

(** X21. A function definition, plain or asynchronous, is visited as any
    other node with the same children: what is inside a function body is
    checked as at module level. The visit of a node leaves the flag
    [in_function_def], the depth and the warnings of the visitor as they
    were. *)
Theorem scope_does_not_exempt (children : list node) (self : validator) :
  visit (FunctionDef children) self = visit (Other children) self
  /\ visit (AsyncFunctionDef children) self = visit (Other children) self
  /\ (forall n,
        self_in_function_def (visit n self) = self_in_function_def self
        /\ self_depth (visit n self) = self_depth self
        /\ self_warnings (visit n self) = self_warnings self).
Proof.
  rewrite !visit_extend. repeat split; rewrite visit_extend; reflexivity.
Qed.

(** X22. The diagnostics follow the order of the source and are never
    merged: visiting a body made of two parts is visiting the first part
    and then the second, and on a fresh visitor the errors and the imports
    of the whole are those of the first part followed by those of the
    second. *)
Theorem diagnostics_concatenate (a b : list node) (self : validator) :
  visit (Other (a ++ b)) self = visit (Other b) (visit (Other a) self)
  /\ self_errors (visit (Other (a ++ b)) new_validator)
     = self_errors (visit (Other a) new_validator)
       ++ self_errors (visit (Other b) new_validator)
  /\ self_imports (visit (Other (a ++ b)) new_validator)
     = self_imports (visit (Other a) new_validator)
       ++ self_imports (visit (Other b) new_validator).
Proof.
  split; [cbn [visit]; apply fold_left_app|].
  rewrite !visit_extend. cbn [preorder flat_map extend self_errors
                              self_imports new_validator app].
  rewrite !flat_map_app.
  replace (own_errors (Other (a ++ b))) with (@nil string) by reflexivity.
  replace (own_errors (Other a)) with (@nil string) by reflexivity.
  replace (own_errors (Other b)) with (@nil string) by reflexivity.
  replace (own_imports (Other (a ++ b))) with (@nil string) by reflexivity.
  replace (own_imports (Other a)) with (@nil string) by reflexivity.
  replace (own_imports (Other b)) with (@nil string) by reflexivity.
  split; reflexivity.
Qed.

(** The warnings of the two scans start with the word [Line]. *)
Lemma secret_scan_head i lines w :
  In w (secret_scan i lines) -> exists rest, w = String "L" rest.
Proof.
  revert i. induction lines as [|line rest IH]; intros i; simpl; [tauto|].
  rewrite in_app_iff. intros [H|H]; [|exact (IH _ H)].
  destruct (_ && _); [|destruct H].
  destruct H as [<-|[]]. eexists. reflexivity.
Qed.

Lemma print_scan_head i lines w :
  In w (print_scan i lines) -> exists rest, w = String "L" rest.
Proof.
  revert i. induction lines as [|line rest IH]; intros i; simpl; [tauto|].
  rewrite in_app_iff. intros [H|H]; [|exact (IH _ H)].
  destruct (_ && _); [|destruct H].
  destruct H as [<-|[]]. eexists. reflexivity.
Qed.

(** X23. On a source that parses, the warnings come from the text alone:
    they are those of the secret scan of its lines, then those of the print
    scan, then the warning about missing imports, which is present exactly
    when no import was recorded. The tree adds no warning. *)
Theorem warnings_from_text_only (ast_parse : string -> parse_result)
    (code : string) (tree : node) :
  ast_parse code = Parsed tree ->
  exists r,
    validate_python_code ast_parse code = Returns r
    /\ warnings r
       = secret_scan 1 (split newline code)
         ++ print_scan 1 (split newline code)
         ++ match imports_found r with
            | [] => ["No imports detected - code may be incomplete"]
            | _ => []
            end
    /\ (In "No imports detected - code may be incomplete" (warnings r)
        <-> imports_found r = []).
Proof.
  intros Hp. unfold validate_python_code. rewrite Hp, visit_extend.
  eexists. split; [reflexivity|].
  cbn [warnings imports_found extend self_warnings self_imports
       new_validator app].
  destruct (flat_map own_imports (preorder tree)) as [|m ms].
  - split; [rewrite <- app_assoc; reflexivity|].
    split; [reflexivity|]. intros _.
    apply in_or_app. right. left. reflexivity.
  - split; [rewrite app_nil_r; reflexivity|].
    split; [|discriminate]. intros H.
    apply in_app_or in H as [H|H].
    + apply secret_scan_head in H as [rest H]. discriminate H.
    + apply print_scan_head in H as [rest H]. discriminate H.
Qed.

Lemma warnings_from_text_only_witness :
  exists r,
    validate_python_code
      (fun _ => Parsed (Other [Other [Call 1 (Name "print") [Other []]]]))
      "print(1)" = Returns r
    /\ warnings r
       = ["Line 1: Use logging instead of print() for production code";
          "No imports detected - code may be incomplete"].
Proof.
  destruct (warnings_from_text_only
              (fun _ =>
                 Parsed (Other [Other [Call 1 (Name "print") [Other []]]]))
              "print(1)" _ eq_refl) as (r & Hr & Hw & _).
  exists r. split; [exact Hr|]. rewrite Hw.
  vm_compute in Hr. injection Hr as <-. vm_compute. reflexivity.
Defined.

Lemma secret_scan_In i lines w :
  In w (secret_scan i lines)
  <-> exists k line,
        lines !! k = Some line
        /\ any_in secret_keys line = true
        /\ any_in ["os.getenv"; "environ.get"] line = false
        /\ w = "Line " +:+ pretty (i + Z.of_nat k)%Z
               +:+ ": Potential hardcoded secret detected. Use os.getenv() instead.".
Proof.
  revert i. induction lines as [|line rest IH]; intros i.
  - simpl. split; [tauto|]. intros (k & l & H & _). discriminate H.
  - cbn [secret_scan]. rewrite in_app_iff, IH. split.
    + intros [H|(k & l & Hk & H1 & H2 & ->)].
      * destruct (any_in secret_keys line) eqn:E1; [|destruct H].
        destruct (any_in ["os.getenv"; "environ.get"] line) eqn:E2;
          [destruct H|].
        destruct H as [<-|[]]. exists 0%nat, line.
        repeat split; try assumption. rewrite Z.add_0_r. reflexivity.
      * exists (S k), l. repeat split; try assumption.
        replace (i + Z.of_nat (S k))%Z with (i + 1 + Z.of_nat k)%Z by lia.
        reflexivity.
    + intros (k & l & Hk & H1 & H2 & ->). destruct k as [|k].
      * left. injection Hk as ->. rewrite H1, H2. left.
        rewrite Z.add_0_r. reflexivity.
      * right. exists k, l. repeat split; try assumption.
        replace (i + Z.of_nat (S k))%Z with (i + 1 + Z.of_nat k)%Z by lia.
        reflexivity.
Qed.

Lemma print_scan_In i lines w :
  In w (print_scan i lines)
  <-> exists k line,
        lines !! k = Some line
        /\ startswith (strip line) "print(" = true
        /\ any_in ["logging"; "__name__"; "argparse"] line = false
        /\ w = "Line " +:+ pretty (i + Z.of_nat k)%Z
               +:+ ": Use logging instead of print() for production code".
Proof.
  revert i. induction lines as [|line rest IH]; intros i.
  - simpl. split; [tauto|]. intros (k & l & H & _). discriminate H.
  - cbn [print_scan]. rewrite in_app_iff, IH. split.
    + intros [H|(k & l & Hk & H1 & H2 & ->)].
      * destruct (startswith (strip line) "print(") eqn:E1; [|destruct H].
        destruct (any_in ["logging"; "__name__"; "argparse"] line) eqn:E2;
          [destruct H|].
        destruct H as [<-|[]]. exists 0%nat, line.
        repeat split; try assumption. rewrite Z.add_0_r. reflexivity.
      * exists (S k), l. repeat split; try assumption.
        replace (i + Z.of_nat (S k))%Z with (i + 1 + Z.of_nat k)%Z by lia.
        reflexivity.
    + intros (k & l & Hk & H1 & H2 & ->). destruct k as [|k].
      * left. injection Hk as ->. rewrite H1, H2. left.
        rewrite Z.add_0_r. reflexivity.
      * right. exists k, l. repeat split; try assumption.
        replace (i + Z.of_nat (S k))%Z with (i + 1 + Z.of_nat k)%Z by lia.
        reflexivity.
Qed.

(** X24. The two line scans warn about exactly the lines that meet their
    test, under the number of the line counted from 1. The secret scan
    cites a line when it holds one of the three credential patterns and
    neither [os.getenv] nor [environ.get]; the print scan cites a line when
    it starts, after blanks, with [print(] and holds none of [logging],
    [__name__], [argparse]. *)
Theorem line_scans_exact (lines : list string) (w : string) :
  (In w (secret_scan 1 lines)
   <-> exists k line,
         lines !! k = Some line
         /\ any_in secret_keys line = true
         /\ any_in ["os.getenv"; "environ.get"] line = false
         /\ w = "Line " +:+ pretty (1 + Z.of_nat k)%Z
                +:+ ": Potential hardcoded secret detected. Use os.getenv() instead.")
  /\ (In w (print_scan 1 lines)
      <-> exists k line,
            lines !! k = Some line
            /\ startswith (strip line) "print(" = true
            /\ any_in ["logging"; "__name__"; "argparse"] line = false
            /\ w = "Line " +:+ pretty (1 + Z.of_nat k)%Z
                   +:+ ": Use logging instead of print() for production code").
Proof. split; [apply secret_scan_In|apply print_scan_In]. Qed.

(** The characters of a text that occurs in another occur in it. *)
Lemma prefix_chars (sub s : string) (c : ascii) :
  String.prefix sub s = true ->
  In c (list_ascii_of_string sub) -> In c (list_ascii_of_string s).
Proof.
  revert s. induction sub as [|a sub IH]; intros s Hp Hc; [destruct Hc|].
  destruct s as [|b s]; [discriminate Hp|]. simpl in Hp.
  destruct (ascii_dec a b) as [->|]; [|discriminate Hp].
  destruct Hc as [->|Hc]; [left; reflexivity|right; exact (IH _ Hp Hc)].
Qed.

Lemma contains_chars (sub s : string) (c : ascii) :
  contains sub s = true ->
  In c (list_ascii_of_string sub) -> In c (list_ascii_of_string s).
Proof.
  induction s as [|b s IH]; intros H Hc.
  - cbn [contains] in H. rewrite orb_false_r in H.
    exact (prefix_chars _ _ _ H Hc).
  - cbn [contains] in H. apply orb_true_iff in H as [H|H].
    + exact (prefix_chars _ _ _ H Hc).
    + right. exact (IH H Hc).
Qed.

(** X25. The secret scan needs a double quote: when no line holds a double
    quote character, it gives no warning, whatever the lines assign. A
    credential written between single quotes is not reported. *)
Theorem secret_scan_needs_double_quote (i : Z) (lines : list string) :
  (forall line, In line lines ->
                ~ In dquote (list_ascii_of_string line)) ->
  secret_scan i lines = [].
Proof.
  revert i. induction lines as [|line rest IH]; intros i H; [reflexivity|].
  cbn [secret_scan].
  assert (any_in secret_keys line = false) as ->.
  { destruct (any_in secret_keys line) eqn:E; [|reflexivity].
    apply existsb_exists in E as (key & Hk & Hc).
    destruct (H line (or_introl eq_refl)).
    apply (contains_chars key line dquote Hc).
    unfold secret_keys in Hk. simpl in Hk.
    destruct Hk as [<-|[<-|[<-|[]]]]; vm_compute; tauto. }
  cbn [andb app]. apply IH. intros l Hl. apply H. right. exact Hl.
Qed.

Lemma secret_scan_needs_double_quote_witness :
  secret_scan 1 ["api_key = 'sk-123'"; "password = 'hunter2'"] = [].
Proof.
  apply (secret_scan_needs_double_quote 1
           ["api_key = 'sk-123'"; "password = 'hunter2'"]).
  intros line [<-|[<-|[]]]; vm_compute;
    intros H; repeat (destruct H as [H|H]; [discriminate H|]); exact H.
Defined.

End CodeValidatorMore.

(** * Names and dependencies of the generated script *)

Module GeneratorSpec.
Import Py Generator.




Lemma slice_to_chars (n : nat) (s : string) (c : ascii) :
  In c (list_ascii_of_string (slice_to n s)) ->
  In c (list_ascii_of_string s).
Proof.
  revert s. induction n as [|n IH]; intros [|a s]; simpl; try tauto.
  intros [H|H]; [left; exact H|right; exact (IH _ H)].
Qed.

Lemma slice_to_length (n : nat) (s : string) :
  (String.length (slice_to n s) <= n)%nat.
Proof.
  revert s. induction n as [|n IH]; intros [|a s]; simpl; try lia.
  specialize (IH s). lia.
Qed.

Lemma remove_non_identifier_chars (s : string) (c : ascii) :
  In c (list_ascii_of_string (remove_non_identifier s))
  <-> In c (list_ascii_of_string s) /\ is_identifier_char c = true.
Proof.
  induction s as [|a s IH]; simpl; [tauto|].
  destruct (is_identifier_char a) eqn:Ha; simpl; rewrite IH.
  - split; [intros [<-|[H1 H2]]; auto|intros [[<-|H1] H2]; auto].
  - split; [intros [H1 H2]; auto|intros [[<-|H1] H2]; [congruence|auto]].
Qed.

Lemma replace_char_chars (old new : ascii) (s : string) (c : ascii) :
  In c (list_ascii_of_string (replace_char old new s))
  <-> exists c0, In c0 (list_ascii_of_string s)
                 /\ c = (if Ascii.eqb c0 old then new else c0).
Proof.
  induction s as [|a s IH]; simpl.
  - split; [tauto|intros (c0 & [] & _)].
  - rewrite IH. split.
    + intros [<-|(c0 & H & ->)]; [exists a; auto|exists c0; auto].
    + intros (c0 & [<-|H] & ->); [left; reflexivity|right; eauto].
Qed.

Lemma string_chars_nil (s : string) :
  s = "" <-> forall c, ~ In c (list_ascii_of_string s).
Proof.
  destruct s as [|a s]; simpl.
  - split; [intros _ c []|reflexivity].
  - split; [discriminate|]. intros H. destruct (H a). left. reflexivity.
Qed.

(** X29. The agent name is always an identifier: it starts with
    [DeepAgent], every character of it is a letter of [a-z] or [A-Z], a
    digit or an underscore, and it is at most 60 characters long. It is
    [DeepAgent] alone exactly when the description holds no space and no
    such character. *)
Theorem sanitize_name_identifier (description : string) :
  startswith (_sanitize_name description) "DeepAgent" = true
  /\ (forall c, In c (list_ascii_of_string (_sanitize_name description)) ->
                is_identifier_char c = true)
  /\ (String.length (_sanitize_name description) <= 60)%nat
  /\ (_sanitize_name description = "DeepAgent"
      <-> forall c, In c (list_ascii_of_string description) ->
                    c <> " "%char /\ is_identifier_char c = false).
Proof.
  unfold _sanitize_name.
  set (kept := remove_non_identifier (replace_char " " "_" description)).
  assert (forall c, In c (list_ascii_of_string (slice_to 50 kept)) ->
                    is_identifier_char c = true) as Hchars.
  { intros c Hc. apply slice_to_chars in Hc.
    apply remove_non_identifier_chars in Hc. tauto. }
  assert (slice_to 50 kept = ""
          <-> forall c, In c (list_ascii_of_string description) ->
                        c <> " "%char /\ is_identifier_char c = false)
    as Hnil.
  { assert (slice_to 50 kept = "" <-> kept = "") as ->
      by (destruct kept; simpl; split; congruence).
    unfold kept. rewrite string_chars_nil. split.
    - intros H c Hc.
      destruct (Ascii.eqb c " ") eqn:Hsp.
      + apply Ascii.eqb_eq in Hsp as ->. destruct (H "_"%char).
        apply remove_non_identifier_chars. split; [|reflexivity].
        apply replace_char_chars. exists " "%char. auto.
      + split; [intros ->; discriminate Hsp|].
        destruct (is_identifier_char c) eqn:Hid; [|reflexivity].
        destruct (H c). apply remove_non_identifier_chars.
        split; [|exact Hid].
        apply replace_char_chars. exists c. rewrite Hsp. auto.
    - intros H c Hc. apply remove_non_identifier_chars in Hc as [Hc Hid].
      apply replace_char_chars in Hc as (c0 & Hc0 & ->).
      destruct (H c0 Hc0) as [Hsp Hid0].
      apply Ascii.eqb_neq in Hsp. rewrite Hsp in Hid. congruence. }
  pose proof (slice_to_length 50 kept) as Hlen.
  destruct (slice_to 50 kept) as [|a name] eqn:Hname.
  - split; [reflexivity|]. split.
    + intros c Hc. simpl in Hc.
      repeat (destruct Hc as [<-|Hc]; [reflexivity|]). destruct Hc.
    + split; [apply Nat.leb_le; reflexivity|].
      split; [intros _|reflexivity].
      apply Hnil. reflexivity.
  - split; [reflexivity|]. split.
    + intros c Hc. cbn in Hc.
      repeat (destruct Hc as [<-|Hc]; [try reflexivity|]);
        try (apply Hchars; left; reflexivity).
      apply Hchars. right. exact Hc.
    + split; [unfold String.app; simpl in Hlen |- *; lia|].
      split; [discriminate|].
      intros H. apply Hnil in H. discriminate H.
Qed.

(** The match of the import pattern, read as a decomposition of the line:
    the keyword, a run of whitespace that is not empty, group 1, a run of
    other characters that is not empty and as long as possible, and the
    rest. *)
Lemma after_prefix_spec (p s r : string) :
  after_prefix p s = Some r <-> s = p +:+ r.
Proof.
  revert s. induction p as [|a p IH]; intros s.
  - change ("" +:+ r) with r. cbn [after_prefix]. split; congruence.
  - change (String a p +:+ r) with (String a (p +:+ r)).
    destruct s as [|b s]; [split; discriminate|]. cbn [after_prefix].
    destruct (Ascii.eqb a b) eqn:E.
    + apply Ascii.eqb_eq in E as ->. rewrite IH.
      split; [intros ->; reflexivity|]. intros [= ->]. reflexivity.
    + apply Ascii.eqb_neq in E. split; [discriminate|].
      intros [= -> _]. destruct E. reflexivity.
Qed.

Lemma lstrip_app (blanks s : string) :
  (forall c, In c (list_ascii_of_string blanks) -> isspace c = true) ->
  lstrip (blanks +:+ s) = lstrip s.
Proof.
  induction blanks as [|a blanks IH]; intros H; [reflexivity|].
  change (String a blanks +:+ s) with (String a (blanks +:+ s)).
  cbn [lstrip]. rewrite (H a (or_introl eq_refl)).
  apply IH. intros c Hc. apply H. right. exact Hc.
Qed.

Lemma lstrip_split (s : string) :
  exists blanks,
    s = blanks +:+ lstrip s
    /\ forall c, In c (list_ascii_of_string blanks) -> isspace c = true.
Proof.
  induction s as [|a s (blanks & Hs & Hb)].
  - exists "". split; [reflexivity|intros c []].
  - cbn [lstrip]. destruct (isspace a) eqn:Ha.
    + exists (String a blanks). split.
      * change (String a blanks +:+ lstrip s)
          with (String a (blanks +:+ lstrip s)).
        rewrite <- Hs. reflexivity.
      * intros c [<-|Hc]; [exact Ha|exact (Hb c Hc)].
    + exists "". split; [reflexivity|intros c []].
Qed.

Lemma nonspace_run_app (group1 rest : string) :
  (forall c, In c (list_ascii_of_string group1) -> isspace c = false) ->
  rest = "" \/ (exists c r, rest = String c r /\ isspace c = true) ->
  nonspace_run (group1 +:+ rest) = group1.
Proof.
  intros H Hrest. induction group1 as [|a group1 IH].
  - destruct Hrest as [->|(c & r & -> & Hc)]; [reflexivity|].
    change ("" +:+ String c r) with (String c r).
    cbn [nonspace_run]. rewrite Hc. reflexivity.
  - change (String a group1 +:+ rest) with (String a (group1 +:+ rest)).
    cbn [nonspace_run]. rewrite (H a (or_introl eq_refl)), IH;
      [reflexivity|]. intros c Hc. apply H. right. exact Hc.
Qed.

Lemma nonspace_run_split (s : string) :
  exists rest,
    s = nonspace_run s +:+ rest
    /\ (forall c, In c (list_ascii_of_string (nonspace_run s)) ->
                  isspace c = false)
    /\ (rest = "" \/ exists c r, rest = String c r /\ isspace c = true).
Proof.
  induction s as [|a s (rest & Hs & Hr & Hrest)].
  - exists "". split; [reflexivity|]. split; [intros c []|left; reflexivity].
  - cbn [nonspace_run]. destruct (isspace a) eqn:Ha.
    + exists (String a s). split; [reflexivity|].
      split; [intros c []|right; eauto].
    + exists rest. split.
      * change (String a (nonspace_run s) +:+ rest)
          with (String a (nonspace_run s +:+ rest)).
        rewrite <- Hs. reflexivity.
      * split; [|exact Hrest].
        intros c [<-|Hc]; [exact Ha|exact (Hr c Hc)].
Qed.

Lemma target_after_spec (keyword line group1 : string) :
  target_after keyword line = Some group1
  <-> exists blanks rest,
        line = keyword +:+ blanks +:+ group1 +:+ rest
        /\ blanks <> ""
        /\ (forall c, In c (list_ascii_of_string blanks) ->
                      isspace c = true)
        /\ group1 <> ""
        /\ (forall c, In c (list_ascii_of_string group1) ->
                      isspace c = false)
        /\ (rest = "" \/ exists c r, rest = String c r /\ isspace c = true).
Proof.
  unfold target_after. split.
  - destruct (after_prefix keyword line) as [[|a tail]|] eqn:Hp;
      try discriminate.
    apply after_prefix_spec in Hp as ->.
    destruct (isspace a) eqn:Ha; [|discriminate].
    destruct (lstrip_split (String a tail)) as (blanks & Hs & Hb).
    destruct (nonspace_run_split (lstrip (String a tail)))
      as (rest & Hn & Hr & Hrest).
    destruct (nonspace_run (lstrip (String a tail))) as [|g gs] eqn:Hg;
      [discriminate|].
    intros [= <-]. exists blanks, rest.
    split; [rewrite <- Hn, <- Hs; reflexivity|].
    split; [|split; [exact Hb|split; [discriminate|split; assumption]]].
    intros ->. change ("" +:+ lstrip (String a tail))
                 with (lstrip (String a tail)) in Hs.
    cbn [lstrip] in Hs. rewrite Ha in Hs.
    assert (String.length (String a tail) = String.length (lstrip tail))
      as Hlen by (rewrite <- Hs; reflexivity).
    clear -Hlen. cbn [String.length] in Hlen.
    assert (forall s, (String.length (lstrip s) <= String.length s)%nat)
      as Hle.
    { induction s as [|b s IH]; cbn [lstrip String.length]; [lia|].
      destruct (isspace b); cbn [String.length]; lia. }
    specialize (Hle tail). lia.
  - intros (blanks & rest & -> & Hne & Hb & Hg & Hr & Hrest).
    rewrite (proj2 (after_prefix_spec keyword _ _) eq_refl).
    destruct blanks as [|b blanks]; [destruct Hne; reflexivity|].
    change (String b blanks +:+ group1 +:+ rest)
      with (String b (blanks +:+ group1 +:+ rest)).
    cbv beta iota. rewrite (Hb b (or_introl eq_refl)).
    change (String b (blanks +:+ group1 +:+ rest))
      with (String b blanks +:+ group1 +:+ rest).
    rewrite (lstrip_app (String b blanks)) by exact Hb.
    assert (lstrip (group1 +:+ rest) = group1 +:+ rest) as ->.
    { destruct group1 as [|g gs]; [destruct Hg; reflexivity|].
      change (String g gs +:+ rest) with (String g (gs +:+ rest)).
      cbn [lstrip]. rewrite (Hr g (or_introl eq_refl)). reflexivity. }
    rewrite (nonspace_run_app group1 rest Hr Hrest).
    destruct group1; [destruct Hg; reflexivity|reflexivity].
Qed.

Lemma import_target_spec (line group1 : string) :
  import_target line = Some group1
  <-> exists keyword blanks rest,
        (keyword = "from" \/ keyword = "import")
        /\ line = keyword +:+ blanks +:+ group1 +:+ rest
        /\ blanks <> ""
        /\ (forall c, In c (list_ascii_of_string blanks) ->
                      isspace c = true)
        /\ group1 <> ""
        /\ (forall c, In c (list_ascii_of_string group1) ->
                      isspace c = false)
        /\ (rest = "" \/ exists c r, rest = String c r /\ isspace c = true).
Proof.
  unfold import_target. split.
  - destruct (target_after "from" line) as [g|] eqn:Hf.
    + intros [= ->]. apply target_after_spec in Hf as (blanks & rest & H).
      exists "from", blanks, rest. tauto.
    + intros Hi. apply target_after_spec in Hi as (blanks & rest & H).
      exists "import", blanks, rest. tauto.
  - intros (keyword & blanks & rest & [->| ->] & H).
    + rewrite (proj2 (target_after_spec "from" line group1));
        [reflexivity|eauto].
    + destruct H as (-> & H).
      rewrite (proj2 (target_after_spec "import" _ group1));
        [reflexivity|exists blanks, rest; tauto].
Qed.

(** The set of the imports and its sorted list. *)
Lemma collect_imports_spec (lines : list string) :
  forall (imports : gset string) (x : string),
    x ∈ collect_imports lines imports
    <-> x ∈ imports
        \/ exists line group1,
             In line lines /\ import_target line = Some group1
             /\ CodeValidator.root_segment group1 = x.
Proof.
  induction lines as [|line rest IH]; intros imports x;
    cbn [collect_imports].
  - split; [auto|]. intros [H|(l & g & [] & _)]. exact H.
  - destruct (import_target line) as [g|] eqn:Hg.
    + rewrite IH, elem_of_union, elem_of_singleton. split.
      * intros [[H| ->]|(l & g' & Hl & Hg' & Hr)].
        -- left. exact H.
        -- right. exists line, g. split; [left; reflexivity|auto].
        -- right. exists l, g'. split; [right; exact Hl|auto].
      * intros [H|(l & g' & [<-|Hl] & Hg' & Hr)].
        -- left. left. exact H.
        -- left. right. congruence.
        -- right. eauto.
    + rewrite IH. split.
      * intros [H|(l & g' & Hl & Hg' & Hr)]; [left; exact H|].
        right. exists l, g'. split; [right; exact Hl|auto].
      * intros [H|(l & g' & [<-|Hl] & Hg' & Hr)];
          [left; exact H|congruence|right; eauto].
Qed.

Lemma sorted_spec (imports : gset string) :
  StronglySorted String.le (sorted imports)
  /\ NoDup (sorted imports)
  /\ forall x, x ∈ sorted imports <-> x ∈ imports.
Proof.
  unfold sorted.
  pose proof (merge_sort_Permutation String.le (elements imports)) as Hp.
  split; [apply StronglySorted_merge_sort; apply _|]. split.
  - rewrite Hp. apply NoDup_elements.
  - intros x. rewrite Hp. apply elem_of_elements.
Qed.

Lemma StronglySorted_filter {A : Type} (R : relation A) (P : A -> Prop)
    `{!forall x, Decision (P x)} (l : list A) :
  StronglySorted R l -> StronglySorted R (filter P l).
Proof.
  induction 1 as [|a l Hl IH Ha]; [constructor|].
  rewrite filter_cons. destruct (decide (P a)); [|exact IH].
  constructor; [exact IH|].
  apply Forall_forall. intros x Hx. apply list_elem_of_filter in Hx as [_ Hx].
  rewrite Forall_forall in Ha. exact (Ha x Hx).
Qed.

(** A sorted list without duplicates whose elements are taken from a
    sorted list is a sublist of it. *)
Lemma sorted_sublist (K L : list string) :
  StronglySorted String.le K -> StronglySorted String.le L -> NoDup L ->
  (forall x, x ∈ L -> x ∈ K) -> L `sublist_of` K.
Proof.
  intros HK. revert L.
  induction HK as [|k K HK IH Hk]; intros L HL Hnd Hin.
  - destruct L as [|x L]; [constructor|].
    specialize (Hin x (list_elem_of_here _ _)). inversion Hin.
  - destruct L as [|x L]; [apply sublist_nil_l|].
    apply NoDup_cons in Hnd as [Hx Hnd].
    apply StronglySorted_inv in HL as [HL HxL].
    rewrite Forall_forall in Hk, HxL.
    destruct (decide (x = k)) as [->|Hne].
    + apply sublist_skip. apply IH; [exact HL|exact Hnd|].
      intros y Hy. specialize (Hin y (list_elem_of_further _ _ _ Hy)).
      apply elem_of_cons in Hin as [->|H]; [contradiction|exact H].
    + apply sublist_cons. apply IH.
      * constructor; [exact HL|]. apply Forall_forall. exact HxL.
      * apply NoDup_cons. split; assumption.
      * intros y Hy. pose proof (Hin y Hy) as H.
        apply elem_of_cons in H as [->|H]; [|exact H].
        apply elem_of_cons in Hy as [Hy|Hy]; [congruence|].
        specialize (Hin x (list_elem_of_here _ _)).
        apply elem_of_cons in Hin as [Hin|Hin]; [contradiction|].
        destruct Hne. apply (anti_symm String.le); auto.
Qed.

Lemma omap_sublist {A B : Type} (f : A -> option B) (l1 l2 : list A) :
  l1 `sublist_of` l2 -> omap f l1 `sublist_of` omap f l2.
Proof.
  induction 1 as [|x l1 l2 H IH|x l1 l2 H IH]; cbn [omap list_omap].
  - constructor.
  - destruct (f x); [apply sublist_skip|]; exact IH.
  - destruct (f x); [apply sublist_cons|]; exact IH.
Qed.

Lemma omap_filter_is_Some {A B : Type} (f : A -> option B) (l : list A) :
  omap f (filter (fun x => is_Some (f x)) l) = omap f l.
Proof.
  induction l as [|x l IH]; [reflexivity|].
  rewrite filter_cons. cbn [omap list_omap].
  destruct (decide (is_Some (f x))) as [[y Hy]|Hn].
  - cbn [omap list_omap]. rewrite Hy. f_equal. exact IH.
  - destruct (f x) as [y|] eqn:Hy; [destruct Hn; eauto|exact IH].
Qed.

Lemma mapping_key (x v : string) :
  mapping !! x = Some v ->
  x ∈ ["deepagents"; "langchain"; "langchain_community"; "langchain_core";
       "langgraph"; "pydantic"; "redis"].
Proof.
  unfold mapping. intros H. apply elem_of_list_to_map_2 in H.
  repeat (apply elem_of_cons in H as [[= -> ->]|H];
          [apply list_elem_of_In; simpl; tauto|]).
  inversion H.
Qed.

(** X30. The dependencies of a script. A requirement is listed exactly when
    a line of the script starts with [from] or [import], whitespace and a
    module path whose root segment is a key of the mapping to that
    requirement. The list is a sublist of the seven requirements in the
    order of their keys, so it holds no duplicate and its order does not
    depend on the order of the imports in the script. *)
Theorem dependencies_characterised (script : string) :
  (forall req,
     In req (extract_dependencies script)
     <-> exists line group1,
           In line (split newline script)
           /\ import_target line = Some group1
           /\ mapping !! CodeValidator.root_segment group1 = Some req)
  /\ extract_dependencies script
     `sublist_of` ["deepagents>=0.2.7"; "langchain>=0.3.0";
                   "langchain-community>=0.3.0"; "langchain-core>=0.3.0";
                   "langgraph>=0.1.0"; "pydantic>=2.0.0"; "redis>=5.0.0"]
  /\ NoDup (extract_dependencies script).
Proof.
  unfold extract_dependencies.
  set (imports := collect_imports (split newline script) ∅).
  destruct (sorted_spec imports) as (Hs & Hnd & Hin).
  assert (omap (fun imp => mapping !! imp) (sorted imports)
          `sublist_of` ["deepagents>=0.2.7"; "langchain>=0.3.0";
                        "langchain-community>=0.3.0";
                        "langchain-core>=0.3.0"; "langgraph>=0.1.0";
                        "pydantic>=2.0.0"; "redis>=5.0.0"]) as Hsub.
  { rewrite <- omap_filter_is_Some.
    change ["deepagents>=0.2.7"; "langchain>=0.3.0";
            "langchain-community>=0.3.0"; "langchain-core>=0.3.0";
            "langgraph>=0.1.0"; "pydantic>=2.0.0"; "redis>=5.0.0"]
      with (omap (fun imp => mapping !! imp)
              ["deepagents"; "langchain"; "langchain_community";
               "langchain_core"; "langgraph"; "pydantic"; "redis"]).
    apply omap_sublist, sorted_sublist.
    - repeat (apply SSorted_cons;
              [|repeat (apply List.Forall_cons; [exact I|]);
                apply List.Forall_nil]).
      apply SSorted_nil.
    - apply StronglySorted_filter. exact Hs.
    - apply NoDup_filter. exact Hnd.
    - intros x Hx. apply list_elem_of_filter in Hx as [[v Hv] _].
      exact (mapping_key x v Hv). }
  split; [|split; [exact Hsub|]].
  - intros req. rewrite <- list_elem_of_In, list_elem_of_omap. split.
    + intros (x & Hx & Hm). apply Hin in Hx.
      apply collect_imports_spec in Hx
        as [Hx|(line & g & Hl & Hg & <-)]; [set_solver|].
      exists line, g. auto.
    + intros (line & g & Hl & Hg & Hm).
      exists (CodeValidator.root_segment g). split; [|exact Hm].
      apply Hin, collect_imports_spec. right. eauto.
  - refine (sublist_NoDup _ _ _ Hsub).
    apply (bool_decide_unpack _). vm_compute. exact I.
Qed.

End GeneratorSpec.
